(** * Scan orchestration of the workspace scan manager

    A shallow embedding of [src/main/scanLogic/scanManager.ts]
    ([ScanManager.scanWorkspace], [runDependenciesScans],
    [runSourceCodeScans], [calculateNumberOfTasks]) and the properties of
    its fan-out, failure isolation, status reduction and finalization.

    The asynchronous functions are modelled over an explicit world: a
    store holding the mutable fields of the session ([scanDetails.status],
    [scanDetails.multiScanId], the results accumulator) together with an
    observation trace, and the promises that were started and have not
    settled yet.  A JavaScript [throw] / promise rejection is the [Throws]
    outcome of a state and exception monad.

    The collaborators that can fail are capability discovery
    ([getSupportedScans]), [startScan], the caller's [checkCanceled] and the
    scans themselves.  The runner factory, [startStep], [shouldRun], the
    logger, [endScan] and [sendUsageReport] are taken to return. *)

From Stdlib Require Import String List Bool Arith Lia Permutation.
Import ListNotations.
Local Open Scope list_scope.

(* ================================================================== *)
(** ** Data *)

(** [PackageType] (types/projectType) and [vscode.Uri] are declared outside
    this file of the repository; both are only passed around by the scan
    manager and are identified here by their printed name. *)
Definition PackageType := string.
Definition Uri := string.

(** [Map<PackageType, vscode.Uri[]>]: a JavaScript [Map] iterates in
    insertion order, which fixes the launch order, so it is kept as an
    association list. *)
Definition Descriptors := list (PackageType * list Uri).

(** Thrown values.  [ScanCancellationError] is the class tested with
    [instanceof] at scanManager.ts:75; any other thrown value is an
    [OtherError]. *)
Inductive Error :=
| ScanCancellationError
| OtherError (message : string).

Definition instanceofScanCancellationError (error : Error) : bool :=
  match error with
  | ScanCancellationError => true
  | OtherError _ => false
  end.

(** [ScanEventStatus] of jfrog-client-js.  The scan manager only ever writes
    [Cancelled] and [Failed]. *)
Inductive ScanEventStatus := Pending | Completed | Failed | Cancelled.

(** The two fields of [BinaryEnvParams] the scan manager assigns. *)
Record BinaryEnvParams := mkParams {
  msi : option string;
  tokenValidation : option bool
}.

(** [scanDetails.jasRunnerFactory.supportedScans], as far as it is read. *)
Record SupportedScans := mkSupported {
  supportsTokenValidation : option bool
}.

(** What a started scan does to the session when it settles: it either
    delivers its findings into the results accumulator or fails. *)
Inductive TaskOutcome :=
| Succeeds (findings : list string)
| Fails (error : Error).

(** A [JasRunner]: its applicability predicate and what its [scan] does
    with the parameters it is handed. *)
Record JasRunner := mkRunner {
  runnerName : string;
  shouldRun : bool;
  scan : option BinaryEnvParams -> TaskOutcome
}.

Inductive Task :=
| DependencyScan (type : PackageType) (descriptorsPaths : list Uri)
| JasScan (runner : string) (params : option BinaryEnvParams).

(** Observable actions on the collaborators, in program order. *)
Inductive Event :=
| EvStartStep (totalTasks : nat)
| EvStartScan
| EvCheckCanceled
| EvLaunch (task : Task)
| EvLogErrorWithAnalytics (error : Error) (flag : bool)
| EvSetStatus (s : ScanEventStatus)
| EvEndScan (s : ScanEventStatus)
| EvSendUsageReport (workspaceDescriptors : Descriptors).

(** JavaScript truthiness of an optional string and an optional boolean. *)
Definition truthyString (v : option string) : bool :=
  match v with
  | Some s => negb (String.eqb s EmptyString)
  | None => false
  end.

Definition truthyBool (v : option bool) : bool :=
  match v with
  | Some b => b
  | None => false
  end.

(* ================================================================== *)
(** ** calculateNumberOfTasks (scanManager.ts:151-157) *)

(** [descriptorsPaths && descriptorsPaths.length > 0]: an array is always
    truthy, so the conjunction is decided by the length. *)
Definition hasDescriptors (descriptorsPaths : list Uri) : bool :=
  true && (0 <? length descriptorsPaths).

Definition calculateNumberOfTasks (jasRunners : list JasRunner)
    (workspaceDescriptors : Descriptors) : nat :=
  fold_left (fun count values => count + length values)
            (filter hasDescriptors (map snd workspaceDescriptors)) 0
  + length jasRunners.

(** The count as the specification words it: the manifest counts of the
    non-empty manifest lists, summed, plus the number of runners whose
    applicability predicate holds. *)
Definition specifiedManifestCount (workspaceDescriptors : Descriptors) : nat :=
  list_sum (map (@length Uri)
                (filter (fun l => negb (length l =? 0))
                        (map snd workspaceDescriptors))).

Definition specifiedNumberOfTasks (jasRunners : list JasRunner)
    (workspaceDescriptors : Descriptors) : nat :=
  specifiedManifestCount workspaceDescriptors
  + length (filter shouldRun jasRunners).

(* ================================================================== *)
(** ** Control: a state and exception monad *)

Inductive Outcome (A : Type) :=
| Returns (a : A)
| Throws (error : Error).
Arguments Returns {A} a.
Arguments Throws {A} error.

Definition M (S A : Type) : Type := S -> Outcome A * S.

Definition ret {S A} (a : A) : M S A := fun s => (Returns a, s).

Definition throw {S A} (error : Error) : M S A := fun s => (Throws error, s).

Definition bind {S A B} (c : M S A) (k : A -> M S B) : M S B :=
  fun s =>
    match c s with
    | (Returns a, s') => k a s'
    | (Throws error, s') => (Throws error, s')
    end.

Declare Scope scan_scope.
Delimit Scope scan_scope with scan.
Notation "x <- c ;; k" := (bind c (fun x => k))
  (at level 61, c at next level, right associativity) : scan_scope.
Notation "c ;; k" := (bind c (fun _ => k))
  (at level 61, right associativity) : scan_scope.
Local Open Scope scan_scope.

(** [try { body } catch (error) { handler } finally { finalizer }].  The
    finalizer runs after the body, or after the handler when the body
    threw; the statement completes as the body or handler did unless the
    finalizer itself throws. *)
Definition tryCatchFinally {S A} (body : M S A) (handler : Error -> M S A)
    (finalizer : M S unit) : M S A :=
  fun s =>
    let (r1, s1) := body s in
    let (r2, s2) := match r1 with
                    | Returns a => (Returns a, s1)
                    | Throws error => handler error s1
                    end in
    let (r3, s3) := finalizer s2 in
    match r3 with
    | Returns _ => (r2, s3)
    | Throws error => (Throws error, s3)
    end.

(** [for (const x of xs) { acc = body(x, acc) }], left on the first throw. *)
Fixpoint forOf {S A B} (xs : list A) (body : A -> B -> M S B) (acc : B)
    : M S B :=
  match xs with
  | [] => ret acc
  | x :: xs' => acc' <- body x acc ;; forOf xs' body acc'
  end.

(* ================================================================== *)
(** ** The session store *)

(** [sessionStatus], [multiScanId] and [scanResults] are the fields of the
    [WorkspaceScanDetails] object the scan manager and the tasks share;
    [trace] records the calls made on collaborators and [checks] counts the
    invocations of [checkCanceled] so far. *)
Record Store := mkStore {
  sessionStatus : ScanEventStatus;
  multiScanId : option string;
  scanResults : list (Task * list string);
  trace : list Event;
  checks : nat
}.

Definition emit (ev : Event) : M Store unit :=
  fun s => (Returns tt,
            mkStore (sessionStatus s) (multiScanId s) (scanResults s)
                    (trace s ++ [ev]) (checks s)).

(** [scanDetails.status = v]. *)
Definition setStatus (v : ScanEventStatus) : M Store unit :=
  fun s => (Returns tt,
            mkStore v (multiScanId s) (scanResults s)
                    (trace s ++ [EvSetStatus v]) (checks s)).

Definition setMultiScanId (v : option string) : M Store unit :=
  fun s => (Returns tt,
            mkStore (sessionStatus s) v (scanResults s) (trace s) (checks s)).

Definition addResults (task : Task) (findings : list string) : M Store unit :=
  fun s => (Returns tt,
            mkStore (sessionStatus s) (multiScanId s)
                    (scanResults s ++ [(task, findings)]) (trace s) (checks s)).

(** [checkCanceled()]: a polled check; the [n]-th invocation (from 0)
    returns or throws as the caller's function decides. *)
Definition callCheckCanceled (checkCanceled : nat -> Outcome unit)
    : M Store unit :=
  fun s => (checkCanceled (checks s),
            mkStore (sessionStatus s) (multiScanId s) (scanResults s)
                    (trace s ++ [EvCheckCanceled]) (S (checks s))).

(** [LogUtils.logErrorWithAnalytics(error, connectionManager, flag)]: the
    logger lives outside this file; a call is recorded with its error and
    its third argument, [false] standing for an omitted one. *)
Definition logErrorWithAnalytics (error : Error) (flag : bool)
    : M Store unit :=
  emit (EvLogErrorWithAnalytics error flag).

(** [scanDetails.endScan()]: the call is recorded together with the status
    the session has at that moment, the one the analytics record is
    closed with. *)
Definition endScan : M Store unit :=
  fun s => emit (EvEndScan (sessionStatus s)) s.

(** [UsageUtils.sendUsageReport(...)]: started, not awaited. *)
Definition sendUsageReport (workspaceDescriptors : Descriptors)
    : M Store unit :=
  emit (EvSendUsageReport workspaceDescriptors).

(* ================================================================== *)
(** ** Promises *)

Inductive Settlement :=
| Fulfilled
| Rejected (error : Error).

(** A [Promise<void>]: the promise of a started asynchronous scan, or the
    promise derived from another one by [.catch(onRejected)]. *)
Inductive Promise :=
| Async (pid : nat) (task : Task) (outcome : TaskOutcome)
| Catch (parent : Promise) (onRejected : Error -> M Store unit).

Fixpoint pidOf (p : Promise) : nat :=
  match p with
  | Async pid _ _ => pid
  | Catch parent _ => pidOf parent
  end.

Fixpoint taskOf (p : Promise) : Task :=
  match p with
  | Async _ task _ => task
  | Catch parent _ => taskOf parent
  end.

Fixpoint outcomeOf (p : Promise) : TaskOutcome :=
  match p with
  | Async _ _ outcome => outcome
  | Catch parent _ => outcomeOf parent
  end.

(** Settling a promise.  A started scan delivers its findings and fulfils,
    or rejects with its error.  A [.catch] promise passes a fulfilment
    through; on a rejection it runs the callback and fulfils when the
    callback returns, and rejects with what the callback throws. *)
Fixpoint settle (p : Promise) : Store -> Settlement * Store :=
  match p with
  | Async _ task outcome =>
      fun s =>
        match outcome with
        | Succeeds findings => (Fulfilled, snd (addResults task findings s))
        | Fails error => (Rejected error, s)
        end
  | Catch parent onRejected =>
      fun s =>
        match settle parent s with
        | (Fulfilled, s') => (Fulfilled, s')
        | (Rejected error, s') =>
            match onRejected error s' with
            | (Returns _, s'') => (Fulfilled, s'')
            | (Throws error', s'') => (Rejected error', s'')
            end
        end
  end.

(** The store, and the promises started and not yet settled. *)
Record World := mkWorld {
  store : Store;
  inflight : list Promise;
  nextPid : nat
}.

Definition onStore {A} (c : M Store A) : M World A :=
  fun w =>
    let (r, s') := c (store w) in
    (r, mkWorld s' (inflight w) (nextPid w)).

Definition notPid (n : nat) (p : Promise) : bool := negb (pidOf p =? n).

(** Calling an [async] function starts the task and hands back its
    promise. *)
Definition startAsync (task : Task) (outcome : TaskOutcome) : M World Promise :=
  fun w =>
    let p := Async (nextPid w) task outcome in
    (Returns p,
     mkWorld (snd (emit (EvLaunch task) (store w)))
             (inflight w ++ [p]) (S (nextPid w))).

(** [p.catch(onRejected)]: the derived promise takes the place of [p] as
    the one the task settles through. *)
Definition catch_ (p : Promise) (onRejected : Error -> M Store unit)
    : M World Promise :=
  fun w =>
    let q := Catch p onRejected in
    (Returns q,
     mkWorld (store w) (filter (notPid (pidOf p)) (inflight w) ++ [q])
             (nextPid w)).

(** One promise settles: its effect reaches the store and it leaves the
    in-flight set. *)
Definition settleNow (p : Promise) : M World Settlement :=
  fun w =>
    let (r, s') := settle p (store w) in
    (Returns r,
     mkWorld s' (filter (notPid (pidOf p)) (inflight w)) (nextPid w)).

(** The promises settle one after the other in the order given; the wait
    ends with the first rejection, the rest staying in flight. *)
Fixpoint settleAll (ps : list Promise) : M World unit :=
  match ps with
  | [] => ret tt
  | p :: ps' =>
      r <- settleNow p ;;
      match r with
      | Fulfilled => settleAll ps'
      | Rejected error => throw error
      end
  end.

(** The host completes pending tasks in an order of its own.  An order is
    coded by insertion positions: the first promise is inserted at position
    [c] of the order chosen for the others (at the end when [c] is too
    large); with no positions left the list order is kept.  Every code
    yields a permutation and every permutation has a code
    ([schedule_Permutation], [schedule_complete]). *)
Definition insertAt {A} (c : nat) (x : A) (l : list A) : list A :=
  firstn c l ++ x :: skipn c l.

Fixpoint schedule {A} (choices : list nat) (ps : list A) {struct ps}
    : list A :=
  match ps with
  | [] => []
  | p :: ps' =>
      match choices with
      | [] => p :: ps'
      | c :: cs => insertAt c p (schedule cs ps')
      end
  end.

(** [await Promise.all(ps)]. *)
Definition awaitPromiseAll (completionOrder : list nat) (ps : list Promise)
    : M World unit :=
  settleAll (schedule completionOrder ps).

(* ================================================================== *)
(** ** The collaborators of one invocation *)

(** What the code outside the scan manager does during one invocation:
    capability discovery, the session's constructor and [startScan], the
    runner factory, the configuration, the dependency scan of one
    ecosystem, and the orders in which the host completes the awaited
    tasks and those left in the background.  [startScan] yields the
    value [scanDetails.multiScanId] has once it has resolved. *)
Record Env := mkEnv {
  getSupportedScans : Outcome SupportedScans;
  initialStatus : ScanEventStatus;
  createJasRunner : list JasRunner;
  getReportAnalytics : bool;
  startScan : Outcome (option string);
  scanPackageDependencies : PackageType -> list Uri -> TaskOutcome;
  completionOrder : list nat;
  backgroundOrder : list nat
}.

Definition call {S A} (r : Outcome A) : M S A := fun s => (r, s).

(** [await scanDetails.startScan()]. *)
Definition awaitStartScan (env : Env) : M Store unit :=
  emit EvStartScan ;;
  msiValue <- call (startScan env) ;;
  setMultiScanId msiValue.

Definition getMultiScanId : M World (option string) :=
  fun w => (Returns (multiScanId (store w)), w).

(* ================================================================== *)
(** ** runDependenciesScans (scanManager.ts:87-104) *)

(** The two rejection callbacks differ only in the third argument handed
    to the logger. *)
Definition logAndFail (flag : bool) (error : Error) : M Store unit :=
  logErrorWithAnalytics error flag ;;
  setStatus Failed.

(** The callback of scanManager.ts:97-100. *)
Definition onDependencyScanRejected : Error -> M Store unit :=
  logAndFail true.

Definition depTask (entry : PackageType * list Uri) : Task :=
  DependencyScan (fst entry) (snd entry).

(** One turn of the loop, lines 95-101. *)
Definition dependencyScanStep (env : Env) (checkCanceled : nat -> Outcome unit)
    (entry : PackageType * list Uri) (scansPromises : list Promise)
    : M World (list Promise) :=
  let (type, descriptorsPaths) := entry in
  onStore (callCheckCanceled checkCanceled) ;;
  p <- startAsync (DependencyScan type descriptorsPaths)
                  (scanPackageDependencies env type descriptorsPaths) ;;
  q <- catch_ p onDependencyScanRejected ;;
  ret (scansPromises ++ [q]).

Definition runDependenciesScans (env : Env)
    (workspaceDescriptors : Descriptors)
    (checkCanceled : nat -> Outcome unit) : M World (list Promise) :=
  forOf workspaceDescriptors (dependencyScanStep env checkCanceled) [].

(* ================================================================== *)
(** ** runSourceCodeScans (scanManager.ts:106-130) *)

(** Lines 108-118: the parameters shared by the runners. *)
Definition sharedParams (multiScanId : option string)
    (supportedScans : SupportedScans) : option BinaryEnvParams :=
  let params :=
    if truthyString multiScanId
    then Some (mkParams multiScanId None)
    else None in
  if truthyBool (supportsTokenValidation supportedScans)
  then match params with
       | Some p => Some (mkParams (msi p) (supportsTokenValidation supportedScans))
       | None => Some (mkParams None (supportsTokenValidation supportedScans))
       end
  else params.

(** The callback of scanManager.ts:122-125; the logger gets no third
    argument. *)
Definition onRunnerScanRejected : Error -> M Store unit :=
  logAndFail false.

Definition runnerTask (params : option BinaryEnvParams) (runner : JasRunner)
    : Task :=
  JasScan (runnerName runner) params.

(** One turn of the loop, lines 120-127. *)
Definition sourceCodeScanStep (params : option BinaryEnvParams)
    (runner : JasRunner) (scansPromises : list Promise)
    : M World (list Promise) :=
  if shouldRun runner
  then p <- startAsync (JasScan (runnerName runner) params)
                       (scan runner params) ;;
       q <- catch_ p onRunnerScanRejected ;;
       ret (scansPromises ++ [q])
  else ret scansPromises.

Definition runSourceCodeScans (supportedScans : SupportedScans)
    (jasRunners : list JasRunner) : M World (list Promise) :=
  id <- getMultiScanId ;;
  let params := sharedParams id supportedScans in
  forOf jasRunners (sourceCodeScanStep params) [].

(* ================================================================== *)
(** ** scanWorkspace (scanManager.ts:48-85) *)

Definition statusFor (error : Error) : ScanEventStatus :=
  if instanceofScanCancellationError error then Cancelled else Failed.

(** The [try] block, lines 66-73. *)
Definition scanWorkspaceTry (env : Env) (supportedScans : SupportedScans)
    (jasRunners : list JasRunner) (workspaceDescriptors : Descriptors)
    (checkCanceled : nat -> Outcome unit) : M World unit :=
  (if getReportAnalytics env then onStore (awaitStartScan env) else ret tt) ;;
  onStore (callCheckCanceled checkCanceled) ;;
  dependenciesScans <-
    runDependenciesScans env workspaceDescriptors checkCanceled ;;
  sourceCodeScans <- runSourceCodeScans supportedScans jasRunners ;;
  awaitPromiseAll (completionOrder env) (dependenciesScans ++ sourceCodeScans).

(** The [catch] block, lines 75-80. *)
Definition scanWorkspaceCatch (error : Error) : M World unit :=
  onStore (if instanceofScanCancellationError error
           then setStatus Cancelled
           else setStatus Failed) ;;
  throw error.

(** The [finally] block, lines 82-83. *)
Definition scanWorkspaceFinally (workspaceDescriptors : Descriptors)
    : M World unit :=
  onStore endScan ;;
  onStore (sendUsageReport workspaceDescriptors).

Definition scanWorkspace (env : Env) (workspaceDescriptors : Descriptors)
    (checkCanceled : nat -> Outcome unit) : M World unit :=
  supportedScans <- call (getSupportedScans env) ;;
  let jasRunners := createJasRunner env in
  onStore (emit (EvStartStep
                   (calculateNumberOfTasks jasRunners workspaceDescriptors))) ;;
  tryCatchFinally
    (scanWorkspaceTry env supportedScans jasRunners workspaceDescriptors
                      checkCanceled)
    scanWorkspaceCatch
    (scanWorkspaceFinally workspaceDescriptors).

(** The world in which an invocation starts: a fresh session, nothing in
    flight. *)
Definition newWorld (env : Env) : World :=
  mkWorld (mkStore (initialStatus env) None [] [] 0) [] 0.

Definition runScanWorkspace (env : Env) (workspaceDescriptors : Descriptors)
    (checkCanceled : nat -> Outcome unit) : Outcome unit * World :=
  scanWorkspace env workspaceDescriptors checkCanceled (newWorld env).

(** After the returned promise has settled, the tasks still in flight go
    on and settle on their own; nobody awaits them. *)
Fixpoint settleEach (ps : list Promise) (w : World) : World :=
  match ps with
  | [] => w
  | p :: ps' => settleEach ps' (snd (settleNow p w))
  end.

Definition settleBackground (env : Env) (w : World) : World :=
  settleEach (schedule (backgroundOrder env) (inflight w)) w.

(** Reading a trace. *)
Definition isEndScan (ev : Event) : bool :=
  match ev with EvEndScan _ => true | _ => false end.

Definition isSendUsageReport (ev : Event) : bool :=
  match ev with EvSendUsageReport _ => true | _ => false end.

Definition isLaunch (ev : Event) : bool :=
  match ev with EvLaunch _ => true | _ => false end.

Definition launchedTasks (tr : list Event) : list Task :=
  flat_map (fun ev => match ev with EvLaunch t => [t] | _ => [] end) tr.

Definition occurrences (f : Event -> bool) (tr : list Event) : nat :=
  length (filter f tr).

(** What can be observed while the [try] block runs. *)
Definition duringFanOut (ev : Event) : bool :=
  match ev with
  | EvStartScan | EvCheckCanceled | EvLaunch _
  | EvLogErrorWithAnalytics _ _ | EvSetStatus Failed => true
  | _ => false
  end.

(** The status the session has after the writes recorded in a trace. *)
Definition statusAfter (init : ScanEventStatus) (tr : list Event)
    : ScanEventStatus :=
  fold_left (fun st ev => match ev with EvSetStatus v => v | _ => st end)
            tr init.

Definition isFailedOrCancelled (s : ScanEventStatus) : bool :=
  match s with
  | Failed | Cancelled => true
  | Pending | Completed => false
  end.

(** Sample collaborators used to exercise the model. *)
Definition neverCanceled : nat -> Outcome unit := fun _ => Returns tt.

Definition canceledAt (k : nat) : nat -> Outcome unit :=
  fun n => if n =? k then Throws ScanCancellationError else Returns tt.

Definition sampleRunnerA : JasRunner :=
  mkRunner "A" true (fun _ => Fails (OtherError "A failed")).
Definition sampleRunnerB : JasRunner :=
  mkRunner "B" true (fun _ => Succeeds ["B-finding"%string]).
Definition sampleRunnerSkipped : JasRunner :=
  mkRunner "C" false (fun _ => Succeeds []).

Definition sampleDescriptors : Descriptors :=
  [("npm"%string, ["a.json"%string]);
   ("pip"%string, ["b.txt"%string; "c.txt"%string])].

Definition sampleEnv : Env :=
  mkEnv (Returns (mkSupported (Some true))) Completed
        [sampleRunnerA; sampleRunnerB] true (Returns (Some "msi-1"%string))
        (fun type _ => Succeeds [type]) [3; 2; 1; 0] [].

(* ================================================================== *)
(** ** Vocabulary of the properties *)

(** The shape of every promise the two fan-out functions build: a started
    scan under one of the two rejection callbacks. *)
Definition guardedScan (flag : bool) (pid : nat) (task : Task)
    (outcome : TaskOutcome) : Promise :=
  Catch (Async pid task outcome) (logAndFail flag).

Inductive guarded : Promise -> Prop :=
| guarded_intro flag pid task outcome :
    guarded (guardedScan flag pid task outcome).

(** What a promise adds to the accumulator when it settles. *)
Definition deliveries (p : Promise) : list (Task * list string) :=
  match outcomeOf p with
  | Succeeds findings => [(taskOf p, findings)]
  | Fails _ => []
  end.

(** A store [s'] reached from [s] by steps of the [try] block: the trace
    grew by fan-out events and the status is what the recorded writes make
    it. *)
Definition advances (s s' : Store) : Prop :=
  exists evs,
    trace s' = trace s ++ evs
    /\ forallb duringFanOut evs = true
    /\ sessionStatus s' = statusAfter (sessionStatus s) evs.

(** The world after [asyncCall(...).catch(callback)]. *)
Definition launched (w : World) (toast : bool) (task : Task)
    (outcome : TaskOutcome) : World :=
  mkWorld (snd (emit (EvLaunch task) (store w)))
          (filter (notPid (nextPid w)) (inflight w)
           ++ [guardedScan toast (nextPid w) task outcome])
          (S (nextPid w)).

(** The observations of the dependency loop over [entries]: a check, then
    a launch, for each. *)
Definition depEvents (entries : Descriptors) : list Event :=
  flat_map (fun entry => [EvCheckCanceled; EvLaunch (depTask entry)]) entries.

(** The promise [runDependenciesScans] pushes for [entry]. *)
Definition depPromise (env : Env) (entry : PackageType * list Uri)
    (p : Promise) : Prop :=
  exists pid,
    p = guardedScan true pid (depTask entry)
          (scanPackageDependencies env (fst entry) (snd entry)).

(** The promise [runSourceCodeScans] pushes for [runner]. *)
Definition runnerPromise (params : option BinaryEnvParams)
    (runner : JasRunner) (p : Promise) : Prop :=
  exists pid,
    p = guardedScan false pid (runnerTask params runner) (scan runner params).

(** Lines 66-68, the first statement of the [try] block. *)
Definition startStage (env : Env) : M World unit :=
  if getReportAnalytics env then onStore (awaitStartScan env) else ret tt.

(** The world when the [try] block is entered: the session exists and the
    progress step has been started. *)
Definition started (env : Env) (wd : Descriptors) : World :=
  mkWorld (mkStore (initialStatus env) None []
                   [EvStartStep (calculateNumberOfTasks (createJasRunner env) wd)]
                   0)
          [] 0.

(** The worlds the [catch] and [finally] blocks lead to. *)
Definition caught (error : Error) (w : World) : World :=
  snd (scanWorkspaceCatch error w).

Definition finalized (wd : Descriptors) (w : World) : World :=
  snd (scanWorkspaceFinally wd w).

(** What the [catch] block records, if it runs. *)
Definition caughtEvents (r : Outcome unit) : list Event :=
  match r with
  | Returns _ => []
  | Throws error => [EvSetStatus (statusFor error)]
  end.

(** Finalization is the last thing recorded. *)
Definition finalizedLast (wd : Descriptors) (w : World) : Prop :=
  exists pre st,
    trace (store w) = pre ++ [EvEndScan st; EvSendUsageReport wd].

(** Finalization was performed exactly once. *)
Definition finalizedOnce (w : World) : Prop :=
  occurrences isEndScan (trace (store w)) = 1
  /\ occurrences isSendUsageReport (trace (store w)) = 1.

(** The launches the specification words: one per entry whose manifest
    list is not empty. *)
Definition specifiedDependencyLaunches (wd : Descriptors) : list Task :=
  map depTask (filter (fun entry => hasDescriptors (snd entry)) wd).

(** Collaborators whose capability discovery rejects, and whose
    [startScan] rejects. *)
Definition discoveryFailsEnv : Env :=
  mkEnv (Throws (OtherError "capability discovery failed")) Completed
        [sampleRunnerA; sampleRunnerB] true (Returns (Some "msi-1"%string))
        (fun type _ => Succeeds [type]) [] [].

Definition discoveryFailsEnv2 : Env :=
  mkEnv (Throws ScanCancellationError) Pending [] false (Returns None)
        (fun _ _ => Succeeds []) [] [].

Definition startScanFailsEnv : Env :=
  mkEnv (Returns (mkSupported None)) Completed [sampleRunnerB] true
        (Throws (OtherError "analytics unavailable"))
        (fun type _ => Succeeds [type]) [] [].

Definition isCheckCanceled (ev : Event) : bool :=
  match ev with EvCheckCanceled => true | _ => false end.

(** What is known of one launched scan once the invocation has returned:
    its findings are in the accumulator, or its failure was logged with
    analytics and the session, as reported by [endScan], is [Failed]. *)
Definition taskAccounted (s : Store) (task : Task) (toast : bool)
    (outcome : TaskOutcome) : Prop :=
  match outcome with
  | Succeeds findings => In (task, findings) (scanResults s)
  | Fails error =>
      sessionStatus s = Failed
      /\ In (EvLogErrorWithAnalytics error toast) (trace s)
      /\ In (EvEndScan Failed) (trace s)
  end.

(** Every recorded status write is a [Failed] or a [Cancelled]. *)
Definition statusWriteOk (ev : Event) : bool :=
  match ev with
  | EvSetStatus s => isFailedOrCancelled s
  | _ => true
  end.

(** The array a fan-out function returns; none when it threw. *)
Definition promisesOf (r : Outcome (list Promise) * World) : list Promise :=
  match fst r with
  | Returns ps => ps
  | Throws _ => []
  end.

(** A promise whose scan succeeds writes neither the status nor the
    trace when it settles. *)
Definition successWritesNoStatus (p : Promise) : Prop :=
  match outcomeOf p with
  | Succeeds _ =>
      forall s : Store,
        sessionStatus (snd (settle p s)) = sessionStatus s
        /\ trace (snd (settle p s)) = trace s
  | Fails _ => True
  end.

(** A dependency scan that fails after the invocation was cancelled. *)
Definition lateFailureEnv : Env :=
  mkEnv (Returns (mkSupported None)) Completed [sampleRunnerB] false
        (Returns None)
        (fun type _ => Fails (OtherError type)) [] [].

(** Reading a field of the parameter bag, [undefined] when there is no
    bag. *)
Definition bagMsi (params : option BinaryEnvParams) : option string :=
  match params with
  | Some p => msi p
  | None => None
  end.

Definition bagTokenValidation (params : option BinaryEnvParams) : option bool :=
  match params with
  | Some p => tokenValidation p
  | None => None
  end.

(** A failure turned into a fulfilment: whatever the store, the promise
    fulfils; when the scan behind it failed, the error has been logged and
    the status set to [Failed], in that order. *)
Definition absorbsFailure (p : Promise) : Prop :=
  forall s : Store,
    fst (settle p s) = Fulfilled
    /\ match outcomeOf p with
       | Succeeds findings =>
           trace (snd (settle p s)) = trace s
           /\ scanResults (snd (settle p s))
              = scanResults s ++ [(taskOf p, findings)]
       | Fails error =>
           sessionStatus (snd (settle p s)) = Failed
           /\ exists toast,
                trace (snd (settle p s))
                = trace s ++ [EvLogErrorWithAnalytics error toast;
                              EvSetStatus Failed]
       end.

(* ================================================================== *)
(** ** Vocabulary of the further properties *)

Definition isLogError (ev : Event) : bool :=
  match ev with EvLogErrorWithAnalytics _ _ => true | _ => false end.

Definition isStartScan (ev : Event) : bool :=
  match ev with EvStartScan => true | _ => false end.

(** What a rejection callback records. *)
Definition isSettlementEvent (ev : Event) : bool :=
  match ev with
  | EvLogErrorWithAnalytics _ _ | EvSetStatus Failed => true
  | _ => false
  end.

Definition failsB (outcome : TaskOutcome) : bool :=
  match outcome with
  | Succeeds _ => false
  | Fails _ => true
  end.

Definition failing (p : Promise) : bool := failsB (outcomeOf p).

(** The dependency scans and the applicable runners whose scan fails. *)
Definition failedDependencyScans (env : Env) (wd : Descriptors) : Descriptors :=
  filter (fun entry =>
            failsB (scanPackageDependencies env (fst entry) (snd entry)))
         wd.

Definition failedRunnerScans (params : option BinaryEnvParams)
    (rs : list JasRunner) : list JasRunner :=
  filter (fun runner => failsB (scan runner params)) (filter shouldRun rs).

(** What the succeeding scans deliver, in launch order. *)
Definition dependencyDeliveries (env : Env) (wd : Descriptors)
    : list (Task * list string) :=
  flat_map (fun entry =>
              match scanPackageDependencies env (fst entry) (snd entry) with
              | Succeeds findings => [(depTask entry, findings)]
              | Fails _ => []
              end)
           wd.

Definition runnerDeliveries (params : option BinaryEnvParams)
    (rs : list JasRunner) : list (Task * list string) :=
  flat_map (fun runner =>
              match scan runner params with
              | Succeeds findings => [(runnerTask params runner, findings)]
              | Fails _ => []
              end)
           (filter shouldRun rs).

(** Promise identifiers are handed out in increasing order: those in
    flight are below the next one. *)
Definition freshPids (w : World) : Prop :=
  Forall (fun p => pidOf p < nextPid w) (inflight w).

(** Where the dependency loop stops when the next check is invocation [n]
    and [count] entries are left: the number of entries it gets through,
    and the condition of the check that ends it, if one throws. *)
Fixpoint fanOutCut (cc : nat -> Outcome unit) (n count : nat)
    : nat * option Error :=
  match count with
  | 0 => (0, None)
  | S count' =>
      match cc n with
      | Throws error => (0, Some error)
      | Returns _ =>
          let (k, stop) := fanOutCut cc (S n) count' in (S k, stop)
      end
  end.

(** The events of the first statement of the [try] block. *)
Definition startEvents (env : Env) : list Event :=
  if getReportAnalytics env then [EvStartScan] else [].

Definition runnerLaunches (params : option BinaryEnvParams)
    (rs : list JasRunner) : list Event :=
  map (fun runner => EvLaunch (runnerTask params runner))
      (filter shouldRun rs).

(** [q] is settled by the joint wait over [ps]. *)
Definition settledBy (ps : list Promise) (q : Promise) : bool :=
  existsb (fun p => pidOf p =? pidOf q) ps.

(* ================================================================== *)
(** * Properties *)

(** ** Task count *)

Lemma fold_left_count_from (ls : list (list Uri)) (n : nat) :
  fold_left (fun count values => count + length values) ls n
  = n + list_sum (map (@length Uri) ls).
Proof.
  revert n; induction ls as [|l ls IH]; intro n; simpl.
  - lia.
  - rewrite IH. lia.
Qed.

Lemma hasDescriptors_nonempty (l : list Uri) :
  hasDescriptors l = negb (length l =? 0).
Proof. destruct l; reflexivity. Qed.

Lemma manifest_count_eq (wd : Descriptors) :
  fold_left (fun count values => count + length values)
            (filter hasDescriptors (map snd wd)) 0
  = specifiedManifestCount wd.
Proof.
  rewrite fold_left_count_from. unfold specifiedManifestCount. simpl.
  f_equal. f_equal. apply filter_ext. exact hasDescriptors_nonempty.
Qed.

(** Empty manifest lists contribute nothing, so the filter does not change
    the sum. *)
Lemma specifiedManifestCount_all (wd : Descriptors) :
  specifiedManifestCount wd = list_sum (map (fun e => length (snd e)) wd).
Proof.
  unfold specifiedManifestCount.
  induction wd as [|[t l] wd IH]; simpl; [reflexivity|].
  destruct l as [|u l]; simpl; rewrite IH; reflexivity.
Qed.

(** C1, as stated, fails: a runner whose [shouldRun] is false is counted.
    With the descriptors [npm: a.json; pip: b.txt, c.txt], one applicable
    runner and one that is not, the code sizes the step at 5, the stated
    formula gives 4. *)
Lemma calculateNumberOfTasks_counts_skipped_runner :
  calculateNumberOfTasks [sampleRunnerB; sampleRunnerSkipped] sampleDescriptors
  <> specifiedNumberOfTasks [sampleRunnerB; sampleRunnerSkipped]
                            sampleDescriptors.
Proof. vm_compute. discriminate. Qed.

(** C1 (amended): for every descriptor mapping and every runner list, the
    computed count is the sum of the manifest counts of the non-empty
    manifest lists plus the number of runners in the list, whatever their
    [shouldRun] returns. *)
Theorem calculateNumberOfTasks_counts_all_runners
    (jasRunners : list JasRunner) (workspaceDescriptors : Descriptors) :
  calculateNumberOfTasks jasRunners workspaceDescriptors
  = specifiedManifestCount workspaceDescriptors + length jasRunners.
Proof.
  unfold calculateNumberOfTasks. rewrite manifest_count_eq. reflexivity.
Qed.

(** ** Completion orders *)

Lemma insertAt_Permutation {A} (c : nat) (x : A) (l : list A) :
  Permutation (x :: l) (insertAt c x l).
Proof.
  unfold insertAt. rewrite <- (firstn_skipn c l) at 1.
  apply Permutation_middle.
Qed.

Lemma schedule_Permutation {A} (choices : list nat) (ps : list A) :
  Permutation ps (schedule choices ps).
Proof.
  revert choices; induction ps as [|p ps IH]; intros [|c cs]; simpl;
    try apply Permutation_refl.
  eapply Permutation_trans; [|apply insertAt_Permutation].
  apply perm_skip, IH.
Qed.

Lemma insertAt_length_app {A} (x : A) (a b : list A) :
  insertAt (length a) x (a ++ b) = a ++ x :: b.
Proof.
  unfold insertAt.
  rewrite firstn_app, skipn_app, Nat.sub_diag, firstn_all, skipn_all.
  simpl. rewrite app_nil_r. reflexivity.
Qed.

Lemma schedule_complete {A} (ps order : list A) :
  Permutation ps order -> exists choices, schedule choices ps = order.
Proof.
  revert order; induction ps as [|p ps IH]; intros order Hperm.
  - apply Permutation_nil in Hperm. subst. exists []. reflexivity.
  - assert (Hin : In p order)
      by (eapply Permutation_in; [exact Hperm | left; reflexivity]).
    destruct (in_split _ _ Hin) as (a & b & ->).
    apply Permutation_cons_app_inv in Hperm.
    destruct (IH _ Hperm) as (cs & Hcs).
    exists (length a :: cs). simpl. rewrite Hcs.
    apply insertAt_length_app.
Qed.

(** ** Guarded promises and their settlement *)

Lemma statusAfter_app (init : ScanEventStatus) (a b : list Event) :
  statusAfter init (a ++ b) = statusAfter (statusAfter init a) b.
Proof. apply fold_left_app. Qed.

Lemma advances_refl (s : Store) : advances s s.
Proof. exists []. rewrite app_nil_r. repeat split. Qed.

Lemma advances_trans (s1 s2 s3 : Store) :
  advances s1 s2 -> advances s2 s3 -> advances s1 s3.
Proof.
  intros (e1 & T1 & F1 & S1) (e2 & T2 & F2 & S2).
  exists (e1 ++ e2). split; [|split].
  - rewrite T2, T1, app_assoc. reflexivity.
  - rewrite forallb_app, F1, F2. reflexivity.
  - rewrite statusAfter_app, <- S1. exact S2.
Qed.

Lemma advances_events (s s' : Store) (evs : list Event) :
  trace s' = trace s ++ evs ->
  forallb duringFanOut evs = true ->
  sessionStatus s' = statusAfter (sessionStatus s) evs ->
  advances s s'.
Proof. intros; exists evs; auto. Qed.

Lemma settle_guardedScan toast pid task outcome (s : Store) :
  settle (guardedScan toast pid task outcome) s
  = match outcome with
    | Succeeds findings =>
        (Fulfilled,
         mkStore (sessionStatus s) (multiScanId s)
                 (scanResults s ++ [(task, findings)]) (trace s) (checks s))
    | Fails error =>
        (Fulfilled,
         mkStore Failed (multiScanId s) (scanResults s)
                 (trace s ++ [EvLogErrorWithAnalytics error toast;
                              EvSetStatus Failed])
                 (checks s))
    end.
Proof.
  destruct outcome as [findings|error]; simpl; [reflexivity|].
  unfold logAndFail, logErrorWithAnalytics, bind, emit, setStatus; simpl.
  rewrite <- app_assoc. reflexivity.
Qed.

Lemma settle_guarded_fulfils (p : Promise) (s : Store) :
  guarded p -> fst (settle p s) = Fulfilled.
Proof.
  intros [toast pid task outcome]. rewrite settle_guardedScan.
  destruct outcome; reflexivity.
Qed.

Lemma settle_guarded_advances (p : Promise) (s : Store) :
  guarded p -> advances s (snd (settle p s)).
Proof.
  intros [toast pid task outcome]. rewrite settle_guardedScan.
  destruct outcome as [findings|error]; simpl.
  - exists []. simpl. rewrite app_nil_r. repeat split.
  - eapply advances_events; simpl; reflexivity.
Qed.

Lemma settle_guarded_results (p : Promise) (s : Store) :
  guarded p ->
  scanResults (snd (settle p s)) = scanResults s ++ deliveries p.
Proof.
  intros [toast pid task outcome]. rewrite settle_guardedScan.
  unfold deliveries; simpl.
  destruct outcome; simpl; [reflexivity | now rewrite app_nil_r].
Qed.

Lemma settle_guarded_failure toast pid task error (s : Store) :
  let s' := snd (settle (guardedScan toast pid task (Fails error)) s) in
  sessionStatus s' = Failed
  /\ trace s'
     = trace s ++ [EvLogErrorWithAnalytics error toast; EvSetStatus Failed].
Proof. cbv zeta. rewrite settle_guardedScan. split; reflexivity. Qed.

Lemma settle_guarded_success (p : Promise) (s : Store) findings :
  guarded p -> outcomeOf p = Succeeds findings ->
  sessionStatus (snd (settle p s)) = sessionStatus s
  /\ trace (snd (settle p s)) = trace s.
Proof.
  intros [toast pid task outcome] Hout. rewrite settle_guardedScan.
  simpl in Hout. subst outcome. simpl. split; reflexivity.
Qed.

(** ** Launching a guarded scan *)

Lemma filter_notPid_fresh (n : nat) task outcome (l : list Promise) :
  filter (notPid n) (l ++ [Async n task outcome]) = filter (notPid n) l.
Proof.
  rewrite filter_app. simpl. unfold notPid at 2. simpl.
  rewrite Nat.eqb_refl. simpl. apply app_nil_r.
Qed.

Lemma guarded_filter (f : Promise -> bool) (l : list Promise) :
  Forall guarded l -> Forall guarded (filter f l).
Proof.
  intro H. apply Forall_forall. intros p Hp.
  apply filter_In in Hp. destruct Hp as [Hp _].
  revert p Hp. apply Forall_forall. exact H.
Qed.

Lemma launched_guarded (w : World) toast task outcome :
  Forall guarded (inflight w) ->
  Forall guarded (inflight (launched w toast task outcome)).
Proof.
  intro H. simpl. apply Forall_app. split.
  - apply guarded_filter, H.
  - constructor; [constructor | constructor].
Qed.

Lemma dependencyScanStep_eq (env : Env) (cc : nat -> Outcome unit)
    (entry : PackageType * list Uri) (acc : list Promise) (w : World) :
  dependencyScanStep env cc entry acc w
  = let w1 := mkWorld (snd (callCheckCanceled cc (store w)))
                      (inflight w) (nextPid w) in
    let outcome := scanPackageDependencies env (fst entry) (snd entry) in
    match cc (checks (store w)) with
    | Throws error => (Throws error, w1)
    | Returns _ =>
        (Returns (acc ++ [guardedScan true (nextPid w) (depTask entry) outcome]),
         launched w1 true (depTask entry) outcome)
    end.
Proof.
  destruct entry as [type descriptorsPaths].
  unfold dependencyScanStep, bind, onStore, callCheckCanceled, startAsync,
    catch_, ret, launched, depTask.
  simpl. destruct (cc (checks (store w))); simpl; [|reflexivity].
  rewrite filter_notPid_fresh. reflexivity.
Qed.

Lemma sourceCodeScanStep_eq (params : option BinaryEnvParams)
    (runner : JasRunner) (acc : list Promise) (w : World) :
  sourceCodeScanStep params runner acc w
  = if shouldRun runner
    then (Returns (acc ++ [guardedScan false (nextPid w)
                             (runnerTask params runner) (scan runner params)]),
          launched w false (runnerTask params runner) (scan runner params))
    else (Returns acc, w).
Proof.
  unfold sourceCodeScanStep, bind, startAsync, catch_, ret, launched,
    runnerTask.
  destruct (shouldRun runner); simpl; [|reflexivity].
  rewrite filter_notPid_fresh. reflexivity.
Qed.

Lemma forOf_cons {S A B} (x : A) (xs : list A) (body : A -> B -> M S B)
    (acc : B) (s : S) :
  forOf (x :: xs) body acc s
  = match body x acc s with
    | (Returns acc', s') => forOf xs body acc' s'
    | (Throws error, s') => (Throws error, s')
    end.
Proof. reflexivity. Qed.

(** ** The dependency fan-out loop *)

(** The loop processes a prefix of [k] entries, a check and a launch for
    each, and stops at the first check that throws. *)
Lemma depLoop_exact (env : Env) (cc : nat -> Outcome unit) (wd : Descriptors) :
  forall (acc : list Promise) (w : World),
  exists k,
    k <= length wd
    /\ (forall i, i < k -> cc (checks (store w) + i) = Returns tt)
    /\ (let r := forOf wd (dependencyScanStep env cc) acc w in
        trace (store (snd r))
        = trace (store w) ++ depEvents (firstn k wd)
          ++ (if k <? length wd then [EvCheckCanceled] else [])
        /\ sessionStatus (store (snd r)) = sessionStatus (store w)
        /\ multiScanId (store (snd r)) = multiScanId (store w)
        /\ scanResults (store (snd r)) = scanResults (store w)
        /\ (Forall guarded (inflight w) -> Forall guarded (inflight (snd r)))
        /\ (k = length wd ->
            exists ps, fst r = Returns (acc ++ ps)
                       /\ Forall2 (depPromise env) wd ps)
        /\ (k < length wd ->
            exists error, fst r = Throws error
                          /\ cc (checks (store w) + k) = Throws error)).
Proof.
  induction wd as [|entry wd IH]; intros acc w.
  - exists 0. simpl. split; [lia|]. split; [intros; lia|].
    rewrite app_nil_r. repeat split; auto.
    + intros _. exists []. rewrite app_nil_r. split; constructor.
    + intros; lia.
  - rewrite forOf_cons, dependencyScanStep_eq. cbv zeta.
    destruct (cc (checks (store w))) as [u|error] eqn:Hcc.
    + destruct u.
      set (w1 := launched _ _ _ _).
      destruct (IH (acc ++ [guardedScan true (nextPid w) (depTask entry)
                              (scanPackageDependencies env (fst entry) (snd entry))])
                   w1)
        as (k & Hk & Hpass & Htr & Hst & Hid & Hres & Hinf & Hall & Hstop).
      exists (S k). split; [simpl; lia|]. split.
      { intros [|i] Hi.
        - rewrite Nat.add_0_r. exact Hcc.
        - specialize (Hpass i ltac:(lia)). simpl in Hpass.
          replace (checks (store w) + S i) with (S (checks (store w)) + i)
            by lia.
          exact Hpass. }
      cbv zeta in *. split; [|split; [|split; [|split; [|split; [|split]]]]].
      * rewrite Htr. simpl. rewrite <- !app_assoc. reflexivity.
      * rewrite Hst. reflexivity.
      * rewrite Hid. reflexivity.
      * rewrite Hres. reflexivity.
      * intro Hg. apply Hinf. apply launched_guarded. exact Hg.
      * intro Hlen. destruct Hall as (ps & Hr & Hps);
          [simpl in Hlen; lia|].
        eexists (_ :: ps). rewrite Hr, <- app_assoc. split; [reflexivity|].
        constructor; [eexists; reflexivity | exact Hps].
      * intro Hlen. destruct Hstop as (error & Hr & Hthrow);
          [simpl in Hlen; lia|].
        exists error. split; [exact Hr|].
        simpl in Hthrow.
        replace (checks (store w) + S k) with (S (checks (store w)) + k)
          by lia.
        exact Hthrow.
    + exists 0. split; [simpl; lia|]. split; [intros; lia|].
      simpl. repeat split; auto.
      * intro; discriminate.
      * intros _. exists error. rewrite Nat.add_0_r. auto.
Qed.

(** ** The runner fan-out loop *)

Lemma runnerLoop_exact (params : option BinaryEnvParams)
    (jasRunners : list JasRunner) :
  forall (acc : list Promise) (w : World),
  exists ps,
    let r := forOf jasRunners (sourceCodeScanStep params) acc w in
    fst r = Returns (acc ++ ps)
    /\ Forall2 (runnerPromise params) (filter shouldRun jasRunners) ps
    /\ trace (store (snd r))
       = trace (store w)
         ++ map (fun runner => EvLaunch (runnerTask params runner))
                (filter shouldRun jasRunners)
    /\ sessionStatus (store (snd r)) = sessionStatus (store w)
    /\ multiScanId (store (snd r)) = multiScanId (store w)
    /\ scanResults (store (snd r)) = scanResults (store w)
    /\ (Forall guarded (inflight w) -> Forall guarded (inflight (snd r))).
Proof.
  induction jasRunners as [|runner rs IH]; intros acc w.
  - exists []. simpl. rewrite !app_nil_r. repeat split; auto.
  - rewrite forOf_cons, sourceCodeScanStep_eq. simpl.
    destruct (shouldRun runner) eqn:Hrun.
    + set (q := guardedScan false _ _ _).
      set (w1 := launched _ _ _ _).
      destruct (IH (acc ++ [q]) w1)
        as (ps & Hr & Hps & Htr & Hst & Hid & Hres & Hinf).
      cbv zeta in *. exists (q :: ps).
      split; [rewrite Hr, <- app_assoc; reflexivity|].
      split; [constructor; [eexists; reflexivity | exact Hps]|].
      split; [rewrite Htr; simpl; rewrite <- app_assoc; reflexivity|].
      split; [rewrite Hst; reflexivity|].
      split; [rewrite Hid; reflexivity|].
      split; [rewrite Hres; reflexivity|].
      intro Hg. apply Hinf, launched_guarded, Hg.
    + apply IH.
Qed.

Lemma depPromise_guarded env (wd : Descriptors) (ps : list Promise) :
  Forall2 (depPromise env) wd ps -> Forall guarded ps.
Proof.
  induction 1 as [|entry p wd ps [pid ->] _ IH]; constructor; auto.
  constructor.
Qed.

Lemma runnerPromise_guarded params (rs : list JasRunner) (ps : list Promise) :
  Forall2 (runnerPromise params) rs ps -> Forall guarded ps.
Proof.
  induction 1 as [|runner p rs ps [pid ->] _ IH]; constructor; auto.
  constructor.
Qed.

(** ** The joint wait over guarded promises *)

Lemma settleAll_cons (p : Promise) (ps : list Promise) (w : World) :
  settleAll (p :: ps) w
  = let w1 := mkWorld (snd (settle p (store w)))
                      (filter (notPid (pidOf p)) (inflight w)) (nextPid w) in
    match fst (settle p (store w)) with
    | Fulfilled => settleAll ps w1
    | Rejected error => (Throws error, w1)
    end.
Proof.
  simpl. unfold bind, settleNow.
  destruct (settle p (store w)) as [[|error] s']; reflexivity.
Qed.

Lemma settleAll_guarded (ps : list Promise) :
  Forall guarded ps ->
  forall w : World,
    let r := settleAll ps w in
    fst r = Returns tt
    /\ advances (store w) (store (snd r))
    /\ scanResults (store (snd r))
       = scanResults (store w) ++ flat_map deliveries ps
    /\ multiScanId (store (snd r)) = multiScanId (store w)
    /\ (Forall guarded (inflight w) -> Forall guarded (inflight (snd r)))
    /\ (forall toast pid task error,
          In (guardedScan toast pid task (Fails error)) ps ->
          sessionStatus (store (snd r)) = Failed
          /\ In (EvLogErrorWithAnalytics error toast)
                (trace (store (snd r)))).
Proof.
  induction 1 as [|p ps Hp Hps IH]; intro w.
  - simpl. split; [reflexivity|]. split; [apply advances_refl|].
    rewrite app_nil_r. repeat split; auto; simpl in *; contradiction.
  - cbv zeta. rewrite settleAll_cons. cbv zeta.
    rewrite (settle_guarded_fulfils p (store w) Hp).
    set (w1 := mkWorld _ _ _).
    destruct (IH w1) as (Hr & Hadv & Hres & Hid & Hinf & Hfail).
    cbv zeta in *.
    split; [exact Hr|].
    split; [eapply advances_trans; [|exact Hadv];
            apply (settle_guarded_advances p (store w) Hp)|].
    split; [rewrite Hres; simpl;
            rewrite (settle_guarded_results p (store w) Hp), <- app_assoc;
            reflexivity|].
    split.
    { rewrite Hid. simpl. destruct Hp as [toast pid task outcome].
      rewrite settle_guardedScan. destruct outcome; reflexivity. }
    split; [intro Hg; apply Hinf; simpl; apply guarded_filter, Hg|].
    intros toast pid task error [Heq|Hq].
    + destruct (settle_guarded_failure toast pid task error (store w))
        as (Hst & Htr).
      rewrite <- Heq in Hst, Htr.
      destruct Hadv as (evs & Htr' & Hok & Hst').
      split.
      * rewrite Hst'. simpl. rewrite Hst.
        clear - Hok. induction evs as [|ev evs IHe]; [reflexivity|].
        simpl in Hok. apply andb_prop in Hok. destruct Hok as [Hev Hok].
        simpl. destruct ev; try discriminate; auto.
        destruct s; try discriminate; auto.
      * rewrite Htr'. simpl. rewrite Htr.
        apply in_or_app. left. apply in_or_app. right. left. reflexivity.
    + apply (Hfail toast pid task error Hq).
Qed.

(** ** The [try] block *)

Lemma bind_eq {S A B} (c : M S A) (k : A -> M S B) (s : S) :
  bind c k s
  = match c s with
    | (Returns a, s') => k a s'
    | (Throws error, s') => (Throws error, s')
    end.
Proof. reflexivity. Qed.

Lemma startStage_eq (env : Env) (w : World) :
  startStage env w
  = let s := store w in
    if getReportAnalytics env
    then match startScan env with
         | Returns m =>
             (Returns tt,
              mkWorld (mkStore (sessionStatus s) m (scanResults s)
                               (trace s ++ [EvStartScan]) (checks s))
                      (inflight w) (nextPid w))
         | Throws error =>
             (Throws error,
              mkWorld (mkStore (sessionStatus s) (multiScanId s)
                               (scanResults s) (trace s ++ [EvStartScan])
                               (checks s))
                      (inflight w) (nextPid w))
         end
    else (Returns tt, w).
Proof.
  unfold startStage, onStore, awaitStartScan, bind, emit, call,
    setMultiScanId, ret.
  destruct (getReportAnalytics env); [|reflexivity].
  simpl. destruct (startScan env); reflexivity.
Qed.

Lemma startStage_spec (env : Env) (w : World) :
  let r := startStage env w in
  advances (store w) (store (snd r))
  /\ inflight (snd r) = inflight w
  /\ checks (store (snd r)) = checks (store w)
  /\ scanResults (store (snd r)) = scanResults (store w)
  /\ (forall error, fst r = Throws error ->
        getReportAnalytics env = true /\ startScan env = Throws error)
  /\ (getReportAnalytics env = false \/ (exists m, startScan env = Returns m) ->
        fst r = Returns tt).
Proof.
  cbv zeta. rewrite startStage_eq. cbv zeta.
  destruct (getReportAnalytics env).
  - destruct (startScan env) as [m|error]; simpl.
    + split; [eapply advances_events; simpl; reflexivity|].
      repeat split; auto; discriminate.
    + split; [eapply advances_events; simpl; reflexivity|].
      repeat split; auto.
      * congruence.
      * intros [H|[m H]]; discriminate.
  - simpl. split; [apply advances_refl|]. repeat split; auto; discriminate.
Qed.

Lemma checkStage_eq (cc : nat -> Outcome unit) (w : World) :
  onStore (callCheckCanceled cc) w
  = (cc (checks (store w)),
     mkWorld (snd (callCheckCanceled cc (store w))) (inflight w) (nextPid w)).
Proof. reflexivity. Qed.

Lemma checkStage_advances (cc : nat -> Outcome unit) (s : Store) :
  advances s (snd (callCheckCanceled cc s)).
Proof. eapply advances_events; simpl; reflexivity. Qed.

Lemma forallb_depEvents (entries : Descriptors) :
  forallb duringFanOut (depEvents entries) = true.
Proof. induction entries; simpl; auto. Qed.

Lemma forallb_launches {A} (f : A -> Task) (l : list A) :
  forallb duringFanOut (map (fun a => EvLaunch (f a)) l) = true.
Proof. induction l; simpl; auto. Qed.

Lemma statusAfter_depEvents init (entries : Descriptors) (tail : bool) :
  statusAfter init
    (depEvents entries ++ (if tail then [EvCheckCanceled] else []))
  = init.
Proof.
  rewrite statusAfter_app.
  assert (H : statusAfter init (depEvents entries) = init)
    by (induction entries; simpl; auto).
  rewrite H. destruct tail; reflexivity.
Qed.

Lemma statusAfter_launches {A} init (f : A -> Task) (l : list A) :
  statusAfter init (map (fun a => EvLaunch (f a)) l) = init.
Proof. induction l; simpl; auto. Qed.

Lemma runDependenciesScans_advances (env : Env) (wd : Descriptors)
    (cc : nat -> Outcome unit) (w : World) :
  advances (store w) (store (snd (runDependenciesScans env wd cc w))).
Proof.
  unfold runDependenciesScans.
  destruct (depLoop_exact env cc wd [] w)
    as (k & _ & _ & Htr & Hst & _).
  eapply advances_events; [exact Htr| |].
  - rewrite forallb_app, forallb_depEvents.
    destruct (k <? length wd); reflexivity.
  - rewrite Hst, statusAfter_depEvents. reflexivity.
Qed.

Lemma runSourceCodeScans_eq (ss : SupportedScans) (rs : list JasRunner)
    (w : World) :
  runSourceCodeScans ss rs w
  = forOf rs (sourceCodeScanStep (sharedParams (multiScanId (store w)) ss))
          [] w.
Proof. reflexivity. Qed.

Lemma runSourceCodeScans_advances (ss : SupportedScans) (rs : list JasRunner)
    (w : World) :
  advances (store w) (store (snd (runSourceCodeScans ss rs w))).
Proof.
  rewrite runSourceCodeScans_eq.
  destruct (runnerLoop_exact (sharedParams (multiScanId (store w)) ss) rs [] w)
    as (ps & _ & _ & Htr & Hst & _).
  eapply advances_events; [exact Htr| |].
  - apply forallb_launches.
  - rewrite Hst, statusAfter_launches. reflexivity.
Qed.

Lemma guarded_schedule (order : list nat) (ps : list Promise) :
  Forall guarded ps -> Forall guarded (schedule order ps).
Proof.
  intro H. eapply Permutation_Forall; [apply schedule_Permutation | exact H].
Qed.

(** Whatever the collaborators do, the [try] block only adds fan-out events,
    keeps every in-flight promise guarded, and can only be left by a throw
    of [startScan] or of a cancellation check. *)
Lemma scanWorkspaceTry_general (env : Env) (ss : SupportedScans)
    (rs : list JasRunner) (wd : Descriptors) (cc : nat -> Outcome unit)
    (w : World) :
  Forall guarded (inflight w) ->
  let r := scanWorkspaceTry env ss rs wd cc w in
  advances (store w) (store (snd r))
  /\ Forall guarded (inflight (snd r))
  /\ (forall error, fst r = Throws error ->
        (getReportAnalytics env = true /\ startScan env = Throws error)
        \/ exists n, cc n = Throws error).
Proof.
  intro Hg. cbv zeta. unfold scanWorkspaceTry. fold (startStage env).
  rewrite bind_eq.
  destruct (startStage_spec env w) as (HadvA & HinfA & _ & _ & HthrowA & _).
  destruct (startStage env w) as [[u|error] w1]; simpl in *.
  2:{ split; [exact HadvA|]. split; [rewrite HinfA; exact Hg|].
      intros e He. injection He as <-. left. apply HthrowA. reflexivity. }
  rewrite bind_eq, checkStage_eq.
  pose proof (checkStage_advances cc (store w1)) as HadvB.
  set (w2 := mkWorld (snd (callCheckCanceled cc (store w1))) _ _).
  assert (Hg2 : Forall guarded (inflight w2)) by (simpl; rewrite HinfA; exact Hg).
  assert (Hadv2 : advances (store w) (store w2))
    by (eapply advances_trans; [exact HadvA | exact HadvB]).
  destruct (cc (checks (store w1))) as [u'|error] eqn:Hcc.
  2:{ simpl. split; [exact Hadv2|]. split; [exact Hg2|].
      intros e He. injection He as <-. right. eexists. exact Hcc. }
  rewrite bind_eq.
  pose proof (runDependenciesScans_advances env wd cc w2) as HadvC.
  unfold runDependenciesScans in *.
  destruct (depLoop_exact env cc wd [] w2)
    as (k & Hk & _ & _ & _ & _ & _ & HinfC & HallC & HstopC).
  destruct (forOf wd (dependencyScanStep env cc) [] w2) as [[deps|error] w3];
    simpl in *.
  2:{ split; [eapply advances_trans; eassumption|].
      split; [auto|].
      intros e He. injection He as <-. right.
      destruct (Nat.eq_dec k (length wd)) as [Heq|Hne].
      - destruct (HallC Heq) as (ps & Hps & _). discriminate.
      - destruct HstopC as (e' & He' & Hthrow); [lia|].
        injection He' as <-. eexists. exact Hthrow. }
  assert (Hdeps : Forall guarded deps).
  { destruct (Nat.eq_dec k (length wd)) as [Heq|Hne].
    - destruct (HallC Heq) as (ps & Hps & HF). injection Hps as ->.
      eapply depPromise_guarded. exact HF.
    - destruct HstopC as (e' & He' & _); [lia|]. discriminate. }
  rewrite bind_eq, runSourceCodeScans_eq.
  pose proof (runSourceCodeScans_advances ss rs w3) as HadvD.
  rewrite runSourceCodeScans_eq in HadvD.
  destruct (runnerLoop_exact (sharedParams (multiScanId (store w3)) ss) rs [] w3)
    as (runs & HrD & HFD & _ & _ & _ & _ & HinfD).
  destruct (forOf rs _ [] w3) as [r4 w4]. simpl in *. subst r4.
  unfold awaitPromiseAll.
  assert (Hall : Forall guarded (schedule (completionOrder env) (deps ++ runs))).
  { apply guarded_schedule, Forall_app. split; [exact Hdeps|].
    eapply runnerPromise_guarded. exact HFD. }
  destruct (settleAll_guarded _ Hall w4) as (HrE & HadvE & _ & _ & HinfE & _).
  cbv zeta in *.
  split.
  { eapply advances_trans; [exact Hadv2|].
    eapply advances_trans; [exact HadvC|].
    eapply advances_trans; [exact HadvD | exact HadvE]. }
  split; [auto|].
  intros e He. rewrite HrE in He. discriminate.
Qed.

Lemma Forall2_In_l {A B} (R : A -> B -> Prop) (l : list A) (l' : list B)
    (x : A) :
  Forall2 R l l' -> In x l -> exists y, In y l' /\ R x y.
Proof.
  induction 1 as [|a b l l' Hab _ IH]; intros Hin; [destruct Hin|].
  destruct Hin as [<-|Hin].
  - exists b. split; [left; reflexivity | exact Hab].
  - destruct (IH Hin) as (y & Hy & HR). exists y. split; [right|]; assumption.
Qed.

Lemma deliveries_guardedScan toast pid task findings :
  deliveries (guardedScan toast pid task (Succeeds findings))
  = [(task, findings)].
Proof. reflexivity. Qed.

(** When [startScan] and every cancellation check return, the [try] block
    returns, every started scan has settled, the findings of each one that
    succeeded are in the accumulator, and each failure was logged and left
    the status [Failed]. *)
Lemma scanWorkspaceTry_completes (env : Env) (ss : SupportedScans)
    (rs : list JasRunner) (wd : Descriptors) (cc : nat -> Outcome unit)
    (w : World) :
  (getReportAnalytics env = false \/ exists m, startScan env = Returns m) ->
  (forall n, cc n = Returns tt) ->
  let r := scanWorkspaceTry env ss rs wd cc w in
  let s' := store (snd r) in
  let params := sharedParams (multiScanId s') ss in
  fst r = Returns tt
  /\ (forall entry findings,
        In entry wd ->
        scanPackageDependencies env (fst entry) (snd entry) = Succeeds findings ->
        In (depTask entry, findings) (scanResults s'))
  /\ (forall runner findings,
        In runner rs -> shouldRun runner = true ->
        scan runner params = Succeeds findings ->
        In (runnerTask params runner, findings) (scanResults s'))
  /\ (forall entry error,
        In entry wd ->
        scanPackageDependencies env (fst entry) (snd entry) = Fails error ->
        sessionStatus s' = Failed
        /\ In (EvLogErrorWithAnalytics error true) (trace s'))
  /\ (forall runner error,
        In runner rs -> shouldRun runner = true ->
        scan runner params = Fails error ->
        sessionStatus s' = Failed
        /\ In (EvLogErrorWithAnalytics error false) (trace s')).
Proof.
  intros Hstart Hcc. cbv zeta. unfold scanWorkspaceTry. fold (startStage env).
  rewrite bind_eq.
  destruct (startStage_spec env w) as (_ & _ & _ & _ & _ & HretA).
  specialize (HretA Hstart).
  destruct (startStage env w) as [rA w1]; simpl in HretA; subst rA.
  rewrite bind_eq, checkStage_eq, Hcc.
  set (w2 := mkWorld (snd (callCheckCanceled cc (store w1))) _ _).
  rewrite bind_eq. unfold runDependenciesScans.
  destruct (depLoop_exact env cc wd [] w2)
    as (k & Hk & _ & _ & _ & HidC & _ & _ & HallC & HstopC).
  assert (Hfull : k = length wd).
  { destruct (Nat.eq_dec k (length wd)) as [Heq|Hne]; [exact Heq|].
    destruct HstopC as (e & _ & He); [lia|]. rewrite Hcc in He. discriminate. }
  destruct (HallC Hfull) as (deps & HrC & HFC). clear HallC HstopC.
  destruct (forOf wd (dependencyScanStep env cc) [] w2) as [rC w3].
  simpl in HrC, HidC. subst rC.
  rewrite bind_eq, runSourceCodeScans_eq.
  set (params := sharedParams (multiScanId (store w3)) ss).
  destruct (runnerLoop_exact params rs [] w3)
    as (runs & HrD & HFD & _ & _ & HidD & _ & _).
  destruct (forOf rs (sourceCodeScanStep params) [] w3) as [rD w4].
  simpl in HrD, HidD. subst rD.
  unfold awaitPromiseAll.
  assert (Hall : Forall guarded (schedule (completionOrder env) (deps ++ runs))).
  { apply guarded_schedule, Forall_app. split.
    - eapply depPromise_guarded. exact HFC.
    - eapply runnerPromise_guarded. exact HFD. }
  destruct (settleAll_guarded _ Hall w4) as (HrE & _ & HresE & HidE & _ & HfailE).
  cbv zeta in *.
  assert (Hparams : sharedParams
                      (multiScanId
                         (store (snd (settleAll
                            (schedule (completionOrder env) (deps ++ runs)) w4))))
                      ss = params).
  { unfold params. rewrite HidE, HidD. reflexivity. }
  rewrite Hparams.
  assert (Hsched : forall p, In p (deps ++ runs) ->
                     In p (schedule (completionOrder env) (deps ++ runs))).
  { intros p Hp. eapply Permutation_in; [apply schedule_Permutation|exact Hp]. }
  split; [exact HrE|].
  split; [|split; [|split]].
  - intros entry findings Hin Hout.
    destruct (Forall2_In_l _ _ _ _ HFC Hin) as (p & Hp & pid & ->).
    rewrite Hout in Hp. rewrite HresE. apply in_or_app. right.
    apply in_flat_map. eexists. split.
    + apply Hsched, in_or_app. left. exact Hp.
    + rewrite deliveries_guardedScan. left. reflexivity.
  - intros runner findings Hin Hrun Hout.
    assert (Hin' : In runner (filter shouldRun rs))
      by (apply filter_In; split; assumption).
    destruct (Forall2_In_l _ _ _ _ HFD Hin') as (p & Hp & pid & ->).
    rewrite Hout in Hp. rewrite HresE. apply in_or_app. right.
    apply in_flat_map. eexists. split.
    + apply Hsched, in_or_app. right. exact Hp.
    + rewrite deliveries_guardedScan. left. reflexivity.
  - intros entry error Hin Hout.
    destruct (Forall2_In_l _ _ _ _ HFC Hin) as (p & Hp & pid & ->).
    rewrite Hout in Hp. eapply HfailE.
    apply Hsched, in_or_app. left. exact Hp.
  - intros runner error Hin Hrun Hout.
    assert (Hin' : In runner (filter shouldRun rs))
      by (apply filter_In; split; assumption).
    destruct (Forall2_In_l _ _ _ _ HFD Hin') as (p & Hp & pid & ->).
    rewrite Hout in Hp. eapply HfailE.
    apply Hsched, in_or_app. right. exact Hp.
Qed.

(** ** The whole invocation *)

Lemma runScanWorkspace_discovery_fails (env : Env) (wd : Descriptors)
    (cc : nat -> Outcome unit) (error : Error) :
  getSupportedScans env = Throws error ->
  runScanWorkspace env wd cc = (Throws error, newWorld env).
Proof.
  intro H. unfold runScanWorkspace, scanWorkspace, bind, call.
  rewrite H. reflexivity.
Qed.

Lemma runScanWorkspace_eq (env : Env) (wd : Descriptors)
    (cc : nat -> Outcome unit) (ss : SupportedScans) :
  getSupportedScans env = Returns ss ->
  runScanWorkspace env wd cc
  = match scanWorkspaceTry env ss (createJasRunner env) wd cc (started env wd)
    with
    | (Returns u, w1) => (Returns u, finalized wd w1)
    | (Throws error, w1) => (Throws error, finalized wd (caught error w1))
    end.
Proof.
  intro H. unfold runScanWorkspace, scanWorkspace. rewrite bind_eq.
  unfold call at 1. rewrite H. rewrite bind_eq.
  change (onStore (emit (EvStartStep
            (calculateNumberOfTasks (createJasRunner env) wd))) (newWorld env))
    with (Returns tt, started env wd).
  cbv iota beta. unfold tryCatchFinally.
  destruct (scanWorkspaceTry env ss (createJasRunner env) wd cc (started env wd))
    as [[u|error] w1].
  - reflexivity.
  - unfold finalized, caught, scanWorkspaceCatch, scanWorkspaceFinally.
    destruct (instanceofScanCancellationError error); reflexivity.
Qed.

Lemma caught_store (error : Error) (w : World) :
  store (caught error w)
  = mkStore (statusFor error) (multiScanId (store w)) (scanResults (store w))
            (trace (store w) ++ [EvSetStatus (statusFor error)])
            (checks (store w))
  /\ inflight (caught error w) = inflight w.
Proof.
  unfold caught, scanWorkspaceCatch, statusFor.
  destruct (instanceofScanCancellationError error); split; reflexivity.
Qed.

Lemma finalized_store (wd : Descriptors) (w : World) :
  store (finalized wd w)
  = mkStore (sessionStatus (store w)) (multiScanId (store w))
            (scanResults (store w))
            (trace (store w)
             ++ [EvEndScan (sessionStatus (store w)); EvSendUsageReport wd])
            (checks (store w))
  /\ inflight (finalized wd w) = inflight w.
Proof.
  unfold finalized, scanWorkspaceFinally, bind, onStore, endScan,
    sendUsageReport, emit. simpl. rewrite <- app_assoc. split; reflexivity.
Qed.

(** The shape of every run that entered the [try] block. *)
Lemma runScanWorkspace_shape (env : Env) (wd : Descriptors)
    (cc : nat -> Outcome unit) (ss : SupportedScans) :
  getSupportedScans env = Returns ss ->
  let r := fst (runScanWorkspace env wd cc) in
  let w := snd (runScanWorkspace env wd cc) in
  exists evs,
    forallb duringFanOut evs = true
    /\ trace (store w)
       = EvStartStep (calculateNumberOfTasks (createJasRunner env) wd)
         :: evs ++ caughtEvents r
         ++ [EvEndScan (sessionStatus (store w)); EvSendUsageReport wd]
    /\ sessionStatus (store w)
       = statusAfter (initialStatus env) (evs ++ caughtEvents r)
    /\ Forall guarded (inflight w).
Proof.
  intro Hss. cbv zeta. rewrite (runScanWorkspace_eq env wd cc ss Hss).
  destruct (scanWorkspaceTry_general env ss (createJasRunner env) wd cc
              (started env wd) (Forall_nil _))
    as ((evs & Htr & Hok & Hst) & Hinf & _).
  destruct (scanWorkspaceTry env ss (createJasRunner env) wd cc (started env wd))
    as [[u|error] w1]; simpl in Htr, Hst, Hinf; exists evs;
    (split; [exact Hok|]); cbn [fst snd].
  - destruct (finalized_store wd w1) as (Hs & Hi). rewrite Hs, Hi. simpl.
    rewrite Htr, app_nil_r. simpl. auto.
  - destruct (finalized_store wd (caught error w1)) as (Hs & Hi).
    destruct (caught_store error w1) as (Hs' & Hi').
    rewrite Hs, Hi, Hs', Hi'. simpl.
    rewrite Htr. simpl. rewrite <- !app_assoc. simpl.
    split; [reflexivity|]. split; [|exact Hinf].
    rewrite statusAfter_app. reflexivity.
Qed.

Lemma no_endScan_during_fanOut (evs : list Event) :
  forallb duringFanOut evs = true -> filter isEndScan evs = [].
Proof.
  induction evs as [|ev evs IH]; simpl; [reflexivity|].
  intro H. apply andb_prop in H. destruct H as [Hev H].
  destruct ev; simpl in *; try discriminate; auto.
Qed.

Lemma no_usageReport_during_fanOut (evs : list Event) :
  forallb duringFanOut evs = true -> filter isSendUsageReport evs = [].
Proof.
  induction evs as [|ev evs IH]; simpl; [reflexivity|].
  intro H. apply andb_prop in H. destruct H as [Hev H].
  destruct ev; simpl in *; try discriminate; auto.
Qed.

Lemma caughtEvents_not_final (r : Outcome unit) :
  filter isEndScan (caughtEvents r) = []
  /\ filter isSendUsageReport (caughtEvents r) = [].
Proof. destruct r; split; reflexivity. Qed.

(** ** Dependency fan-out (C2) *)

(** C2, as stated, fails: for the mapping [npm: (no manifest)] and a check
    that never cancels, a dependency scan is launched for the entry with
    the empty manifest list. *)
Lemma runDependenciesScans_launches_for_empty_list :
  launchedTasks
    (trace (store (snd (runDependenciesScans sampleEnv [("npm"%string, [])]
                          neverCanceled (newWorld sampleEnv)))))
  <> specifiedDependencyLaunches [("npm"%string, [])].
Proof. vm_compute. discriminate. Qed.

(** C2 (amended): [runDependenciesScans] walks the mapping in iteration
    order and, for every entry, empty manifest list or not, invokes the
    cancellation check and then launches exactly one dependency scan; it
    stops at the first check that throws, launching nothing further, and
    otherwise returns one promise per entry. *)
Theorem runDependenciesScans_one_task_per_entry (env : Env)
    (wd : Descriptors) (cc : nat -> Outcome unit) (w : World) :
  exists k,
    k <= length wd
    /\ Forall (fun i => cc (checks (store w) + i) = Returns tt) (seq 0 k)
    /\ (let r := runDependenciesScans env wd cc w in
        trace (store (snd r))
        = trace (store w) ++ depEvents (firstn k wd)
          ++ (if k <? length wd then [EvCheckCanceled] else [])
        /\ match fst r with
           | Returns ps => k = length wd /\ map taskOf ps = map depTask wd
           | Throws error =>
               k < length wd /\ cc (checks (store w) + k) = Throws error
           end).
Proof.
  unfold runDependenciesScans.
  destruct (depLoop_exact env cc wd [] w)
    as (k & Hk & Hpass & Htr & _ & _ & _ & _ & Hall & Hstop).
  cbv zeta in *. exists k. split; [exact Hk|]. split.
  { apply Forall_forall. intros i Hi. apply in_seq in Hi. apply Hpass. lia. }
  split; [exact Htr|].
  destruct (Nat.eq_dec k (length wd)) as [Heq|Hne].
  - destruct (Hall Heq) as (ps & -> & HF). simpl. split; [exact Heq|].
    clear - HF. induction HF as [|entry p l ps [pid ->] _ IH]; simpl;
      [reflexivity|]. rewrite IH. reflexivity.
  - destruct Hstop as (error & -> & Hthrow); [lia|]. split; [lia|exact Hthrow].
Qed.

(** ** Finalization (C3, C9) *)

(** C3, as stated, fails: when capability discovery, awaited before the
    [try] block, rejects, the invocation rejects and neither [endScan] nor
    [sendUsageReport] has been called. *)
Lemma no_finalization_when_discovery_rejects :
  ~ finalizedOnce
      (snd (runScanWorkspace discoveryFailsEnv sampleDescriptors neverCanceled)).
Proof. unfold finalizedOnce. vm_compute. intros [H _]. discriminate. Qed.

(** C3 (amended): once capability discovery has succeeded, so that the
    session exists and the [try] block is entered, every exit path --
    normal completion, task failures, cancellation, a throw of [startScan]
    or of a cancellation check -- runs [endScan] and [sendUsageReport]
    exactly once, as the last two actions before the call settles. *)
Theorem finalization_exactly_once (env : Env) (wd : Descriptors)
    (cc : nat -> Outcome unit) (ss : SupportedScans) :
  getSupportedScans env = Returns ss ->
  finalizedOnce (snd (runScanWorkspace env wd cc))
  /\ finalizedLast wd (snd (runScanWorkspace env wd cc)).
Proof.
  intro Hss.
  destruct (runScanWorkspace_shape env wd cc ss Hss)
    as (evs & Hok & Htr & _ & _).
  cbv zeta in Htr. unfold finalizedOnce, finalizedLast, occurrences.
  rewrite Htr. split; [split|].
  - simpl. rewrite !filter_app, (no_endScan_during_fanOut evs Hok).
    rewrite (proj1 (caughtEvents_not_final _)). reflexivity.
  - simpl. rewrite !filter_app, (no_usageReport_during_fanOut evs Hok).
    rewrite (proj2 (caughtEvents_not_final _)). reflexivity.
  - eexists (_ :: evs ++ caughtEvents _), _. simpl.
    rewrite <- app_assoc. reflexivity.
Qed.

Lemma finalization_exactly_once_witness :
  finalizedOnce (snd (runScanWorkspace sampleEnv sampleDescriptors (canceledAt 2)))
  /\ finalizedLast sampleDescriptors
       (snd (runScanWorkspace sampleEnv sampleDescriptors (canceledAt 2))).
Proof.
  apply (finalization_exactly_once sampleEnv sampleDescriptors (canceledAt 2)
           (mkSupported (Some true))).
  reflexivity.
Defined.

(** C9, as stated, fails: the promise also settles by rejecting when
    capability discovery rejects, and then no finalization has taken
    place. *)
Lemma rejects_without_finalization :
  fst (runScanWorkspace discoveryFailsEnv2 [] neverCanceled)
  = Throws ScanCancellationError
  /\ ~ finalizedLast []
         (snd (runScanWorkspace discoveryFailsEnv2 [] neverCanceled)).
Proof.
  split; [reflexivity|].
  intros (pre & st & H). vm_compute in H.
  destruct pre; discriminate.
Qed.

(** C9 (amended): the promise returned by [scanWorkspace] is a void
    promise; it fulfils only after [endScan] and [sendUsageReport] have
    been performed, and when it rejects either they have been performed as
    well or the rejection is that of capability discovery, awaited before
    the session exists. *)
Theorem settles_after_finalization (env : Env) (wd : Descriptors)
    (cc : nat -> Outcome unit) :
  match fst (runScanWorkspace env wd cc) with
  | Returns u => u = tt /\ finalizedLast wd (snd (runScanWorkspace env wd cc))
  | Throws error =>
      finalizedLast wd (snd (runScanWorkspace env wd cc))
      \/ (getSupportedScans env = Throws error
          /\ snd (runScanWorkspace env wd cc) = newWorld env)
  end.
Proof.
  destruct (getSupportedScans env) as [ss|error] eqn:Hss.
  - assert (Hlast : finalizedLast wd (snd (runScanWorkspace env wd cc))).
    { destruct (runScanWorkspace_shape env wd cc ss Hss)
        as (evs & _ & Htr & _ & _).
      cbv zeta in Htr. unfold finalizedLast. rewrite Htr.
      eexists (_ :: evs ++ caughtEvents _), _. simpl.
      rewrite <- app_assoc. reflexivity. }
    destruct (fst (runScanWorkspace env wd cc)) as [[]|e]; auto.
  - rewrite (runScanWorkspace_discovery_fails env wd cc error Hss). simpl.
    right. split; reflexivity.
Qed.

(** ** Failure reduction (C5) *)

(** C5: when a condition leaves the [try] block of [scanWorkspace], the
    session status is set to [Cancelled] if it is a [ScanCancellationError]
    and to [Failed] otherwise, finalization runs with that status, and
    the same condition is raised to the caller. *)
Theorem unhandled_condition_reduces_status_and_is_reraised (env : Env)
    (wd : Descriptors) (cc : nat -> Outcome unit) (ss : SupportedScans)
    (error : Error) :
  getSupportedScans env = Returns ss ->
  fst (scanWorkspaceTry env ss (createJasRunner env) wd cc (started env wd))
  = Throws error ->
  let r := runScanWorkspace env wd cc in
  let st := if instanceofScanCancellationError error
            then Cancelled else Failed in
  fst r = Throws error
  /\ sessionStatus (store (snd r)) = st
  /\ exists pre,
       trace (store (snd r))
       = pre ++ [EvSetStatus st; EvEndScan st; EvSendUsageReport wd].
Proof.
  intros Hss Hthrow. cbv zeta. rewrite (runScanWorkspace_eq env wd cc ss Hss).
  destruct (scanWorkspaceTry env ss (createJasRunner env) wd cc (started env wd))
    as [r1 w1]. simpl in Hthrow. subst r1. cbn [fst snd].
  destruct (finalized_store wd (caught error w1)) as (Hs & _).
  destruct (caught_store error w1) as (Hs' & _).
  rewrite Hs, Hs'. simpl. fold (statusFor error).
  split; [reflexivity|]. split; [reflexivity|].
  exists (trace (store w1)). rewrite <- app_assoc. reflexivity.
Qed.

Lemma unhandled_condition_witness_cancelled :
  let r := runScanWorkspace sampleEnv sampleDescriptors (canceledAt 1) in
  fst r = Throws ScanCancellationError
  /\ sessionStatus (store (snd r)) = Cancelled
  /\ exists pre,
       trace (store (snd r))
       = pre ++ [EvSetStatus Cancelled; EvEndScan Cancelled;
                 EvSendUsageReport sampleDescriptors].
Proof.
  apply (unhandled_condition_reduces_status_and_is_reraised
           sampleEnv sampleDescriptors (canceledAt 1)
           (mkSupported (Some true)) ScanCancellationError);
    reflexivity.
Defined.

(** ** Cancellation before fan-out (C6) *)

Lemma scanWorkspaceTry_cancelled_at_entry (env : Env) (ss : SupportedScans)
    (rs : list JasRunner) (wd : Descriptors) (cc : nat -> Outcome unit)
    (w : World) (error : Error) :
  (getReportAnalytics env = false \/ exists m, startScan env = Returns m) ->
  cc (checks (store w)) = Throws error ->
  let r := scanWorkspaceTry env ss rs wd cc w in
  fst r = Throws error
  /\ inflight (snd r) = inflight w
  /\ sessionStatus (store (snd r)) = sessionStatus (store w)
  /\ trace (store (snd r))
     = trace (store w)
       ++ (if getReportAnalytics env then [EvStartScan] else [])
       ++ [EvCheckCanceled].
Proof.
  intros Hstart Hcc. cbv zeta. unfold scanWorkspaceTry. fold (startStage env).
  rewrite bind_eq, startStage_eq. cbv zeta.
  destruct (getReportAnalytics env).
  - destruct Hstart as [H|[m Hm]]; [discriminate|]. rewrite Hm.
    rewrite bind_eq, checkStage_eq. simpl. rewrite Hcc. simpl.
    rewrite <- app_assoc. repeat split; reflexivity.
  - rewrite bind_eq, checkStage_eq. rewrite Hcc. simpl.
    repeat split; reflexivity.
Qed.

(** C6: if the cancellation check invoked once before fan-out raises its
    cancellation condition, no dependency scan and no runner is launched,
    the session status becomes [Cancelled], and the condition is raised to
    the caller (after finalization). *)
Theorem cancellation_before_fan_out (env : Env) (wd : Descriptors)
    (cc : nat -> Outcome unit) (ss : SupportedScans) (error : Error) :
  getSupportedScans env = Returns ss ->
  (getReportAnalytics env = false \/ exists m, startScan env = Returns m) ->
  cc 0 = Throws error ->
  instanceofScanCancellationError error = true ->
  let r := runScanWorkspace env wd cc in
  fst r = Throws error
  /\ launchedTasks (trace (store (snd r))) = []
  /\ inflight (snd r) = []
  /\ occurrences isCheckCanceled (trace (store (snd r))) = 1
  /\ sessionStatus (store (snd r)) = Cancelled
  /\ finalizedLast wd (snd r).
Proof.
  intros Hss Hstart Hcc Hcancel. cbv zeta.
  rewrite (runScanWorkspace_eq env wd cc ss Hss).
  destruct (scanWorkspaceTry_cancelled_at_entry env ss (createJasRunner env)
              wd cc (started env wd) error Hstart Hcc)
    as (Hr & Hinf & Hst & Htr).
  destruct (scanWorkspaceTry env ss (createJasRunner env) wd cc (started env wd))
    as [r1 w1]. simpl in Hr, Hinf, Hst, Htr. subst r1. cbn [fst snd].
  destruct (finalized_store wd (caught error w1)) as (Hs & Hi).
  destruct (caught_store error w1) as (Hs' & Hi').
  unfold finalizedLast. rewrite Hs, Hi, Hs', Hi', Hinf, Htr.
  unfold statusFor. rewrite Hcancel. simpl.
  split; [reflexivity|].
  destruct (getReportAnalytics env); simpl; repeat split; try reflexivity.
  - eexists [_; _; _; _], _. reflexivity.
  - eexists [_; _; _], _. reflexivity.
Qed.

Lemma cancellation_before_fan_out_witness :
  let r := runScanWorkspace sampleEnv sampleDescriptors (canceledAt 0) in
  fst r = Throws ScanCancellationError
  /\ launchedTasks (trace (store (snd r))) = []
  /\ inflight (snd r) = []
  /\ occurrences isCheckCanceled (trace (store (snd r))) = 1
  /\ sessionStatus (store (snd r)) = Cancelled
  /\ finalizedLast sampleDescriptors (snd r).
Proof.
  apply (cancellation_before_fan_out sampleEnv sampleDescriptors (canceledAt 0)
           (mkSupported (Some true)) ScanCancellationError).
  - reflexivity.
  - right. exists (Some "msi-1"%string). reflexivity.
  - reflexivity.
  - reflexivity.
Defined.

(** ** Partial-failure isolation (C4) *)

(** C4: when [startScan] and the cancellation checks return, a task that
    fails internally does not reach the caller -- [scanWorkspace] returns
    normally -- its error is logged with analytics and the status is
    [Failed], and every other launched dependency scan and runner has run
    to completion with its findings in the accumulator. *)
Theorem task_failure_is_isolated (env : Env) (wd : Descriptors)
    (cc : nat -> Outcome unit) (ss : SupportedScans) :
  getSupportedScans env = Returns ss ->
  (getReportAnalytics env = false \/ exists m, startScan env = Returns m) ->
  (forall n, cc n = Returns tt) ->
  let r := runScanWorkspace env wd cc in
  let s := store (snd r) in
  let params := sharedParams (multiScanId s) ss in
  fst r = Returns tt
  /\ Forall (fun entry =>
               taskAccounted s (depTask entry) true
                 (scanPackageDependencies env (fst entry) (snd entry)))
            wd
  /\ Forall (fun runner =>
               taskAccounted s (runnerTask params runner) false
                 (scan runner params))
            (filter shouldRun (createJasRunner env)).
Proof.
  intros Hss Hstart Hcc. cbv zeta.
  rewrite (runScanWorkspace_eq env wd cc ss Hss).
  destruct (scanWorkspaceTry_completes env ss (createJasRunner env) wd cc
              (started env wd) Hstart Hcc)
    as (Hr & Hdep & Hrun & Hdepf & Hrunf).
  destruct (scanWorkspaceTry env ss (createJasRunner env) wd cc (started env wd))
    as [r1 w1]. cbn [fst snd] in *. subst r1. cbn [fst snd].
  destruct (finalized_store wd w1) as (Hs & _). rewrite Hs. cbn.
  split; [reflexivity|]. split.
  - apply Forall_forall. intros entry Hin. unfold taskAccounted.
    destruct (scanPackageDependencies env (fst entry) (snd entry))
      as [findings|error] eqn:Hout; cbn.
    + apply (Hdep entry findings Hin Hout).
    + destruct (Hdepf entry error Hin Hout) as (Hst & Hlog).
      split; [exact Hst|]. split.
      * apply in_or_app. left. exact Hlog.
      * apply in_or_app. right. left. rewrite Hst. reflexivity.
  - apply Forall_forall. intros runner Hin. apply filter_In in Hin.
    destruct Hin as (Hin & Hshould). unfold taskAccounted.
    destruct (scan runner (sharedParams (multiScanId (store w1)) ss))
      as [findings|error] eqn:Hout; cbn.
    + apply (Hrun runner findings Hin Hshould Hout).
    + destruct (Hrunf runner error Hin Hshould Hout) as (Hst & Hlog).
      split; [exact Hst|]. split.
      * apply in_or_app. left. exact Hlog.
      * apply in_or_app. right. left. rewrite Hst. reflexivity.
Qed.

Lemma task_failure_is_isolated_witness :
  let r := runScanWorkspace sampleEnv sampleDescriptors neverCanceled in
  let s := store (snd r) in
  let params := sharedParams (multiScanId s) (mkSupported (Some true)) in
  fst r = Returns tt
  /\ Forall (fun entry =>
               taskAccounted s (depTask entry) true
                 (scanPackageDependencies sampleEnv (fst entry) (snd entry)))
            sampleDescriptors
  /\ Forall (fun runner =>
               taskAccounted s (runnerTask params runner) false
                 (scan runner params))
            (filter shouldRun (createJasRunner sampleEnv)).
Proof.
  apply (task_failure_is_isolated sampleEnv sampleDescriptors neverCanceled
           (mkSupported (Some true))).
  - reflexivity.
  - right. exists (Some "msi-1"%string). reflexivity.
  - intro n. reflexivity.
Defined.

(** The specification's scenario: runner A fails, runner B and both
    dependency scans succeed. *)
Example scenario_runner_A_fails :
  let r := runScanWorkspace sampleEnv sampleDescriptors neverCanceled in
  fst r = Returns tt
  /\ sessionStatus (store (snd r)) = Failed
  /\ map snd (scanResults (store (snd r)))
     = [["B-finding"%string]; ["pip"%string]; ["npm"%string]]
  /\ occurrences isSendUsageReport (trace (store (snd r))) = 1
  /\ inflight (snd r) = [].
Proof. vm_compute. repeat split. Qed.

(** ** Monotonic status (C7) *)

Lemma duringFanOut_statusWriteOk (evs : list Event) :
  forallb duringFanOut evs = true -> forallb statusWriteOk evs = true.
Proof.
  induction evs as [|ev evs IH]; simpl; [reflexivity|].
  intro H. apply andb_prop in H. destruct H as [Hev H].
  rewrite (IH H), andb_true_r.
  destruct ev; simpl in *; try reflexivity.
  destruct s; simpl in *; try discriminate; reflexivity.
Qed.

Lemma statusAfter_stays_terminal (evs : list Event) :
  forall st,
    forallb statusWriteOk evs = true ->
    isFailedOrCancelled st = true ->
    isFailedOrCancelled (statusAfter st evs) = true.
Proof.
  induction evs as [|ev evs IH]; intros st Hok Hst; simpl; [exact Hst|].
  simpl in Hok. apply andb_prop in Hok. destruct Hok as [Hev Hok].
  apply IH; [exact Hok|].
  destruct ev; simpl in *; assumption.
Qed.

Lemma settleEach_guarded (ps : list Promise) :
  Forall guarded ps ->
  forall w, advances (store w) (store (settleEach ps w)).
Proof.
  induction 1 as [|p ps Hp _ IH]; intro w; simpl.
  - apply advances_refl.
  - eapply advances_trans; [|apply IH].
    unfold settleNow.
    pose proof (settle_guarded_advances p (store w) Hp) as H.
    destruct (settle p (store w)) as [r s']. exact H.
Qed.

(** Every status write of an invocation, the tasks left in the background
    included, is recorded, and writes [Failed] or [Cancelled]. *)
Lemma status_writes_recorded (env : Env) (wd : Descriptors)
    (cc : nat -> Outcome unit) :
  let w := settleBackground env (snd (runScanWorkspace env wd cc)) in
  forallb statusWriteOk (trace (store w)) = true
  /\ sessionStatus (store w)
     = statusAfter (initialStatus env) (trace (store w)).
Proof.
  cbv zeta. unfold settleBackground.
  destruct (getSupportedScans env) as [ss|error] eqn:Hss.
  - destruct (runScanWorkspace_shape env wd cc ss Hss)
      as (evs & Hok & Htr & Hst & Hinf).
    cbv zeta in *.
    set (w1 := snd (runScanWorkspace env wd cc)) in *.
    destruct (settleEach_guarded _
                (guarded_schedule (backgroundOrder env) _ Hinf) w1)
      as (evs2 & Htr2 & Hok2 & Hst2).
    rewrite Htr2, Htr, Hst2, Hst. split.
    + simpl. rewrite !forallb_app.
      rewrite (duringFanOut_statusWriteOk _ Hok),
        (duringFanOut_statusWriteOk _ Hok2).
      destruct (fst (runScanWorkspace env wd cc)) as [u|e]; simpl;
        [reflexivity|].
      unfold statusFor. destruct (instanceofScanCancellationError e);
        reflexivity.
    + simpl. rewrite !statusAfter_app. reflexivity.
  - rewrite (runScanWorkspace_discovery_fails env wd cc error Hss).
    unfold newWorld. simpl. split; reflexivity.
Qed.

Lemma promisesOf_runDependenciesScans_guarded (env : Env) (wd : Descriptors)
    (cc : nat -> Outcome unit) (w : World) :
  Forall guarded (promisesOf (runDependenciesScans env wd cc w)).
Proof.
  unfold promisesOf, runDependenciesScans.
  destruct (depLoop_exact env cc wd [] w)
    as (k & Hk & _ & _ & _ & _ & _ & _ & Hall & Hstop).
  cbv zeta in *.
  destruct (Nat.eq_dec k (length wd)) as [Heq|Hne].
  - destruct (Hall Heq) as (ps & -> & HF).
    eapply depPromise_guarded. exact HF.
  - destruct Hstop as (error & -> & _); [lia|]. constructor.
Qed.

Lemma promisesOf_runSourceCodeScans_guarded (ss : SupportedScans)
    (rs : list JasRunner) (w : World) :
  Forall guarded (promisesOf (runSourceCodeScans ss rs w)).
Proof.
  unfold promisesOf. rewrite runSourceCodeScans_eq.
  destruct (runnerLoop_exact (sharedParams (multiScanId (store w)) ss) rs [] w)
    as (ps & Hr & HF & _).
  cbv zeta in *. rewrite Hr. eapply runnerPromise_guarded. exact HF.
Qed.

Lemma guarded_successWritesNoStatus (p : Promise) :
  guarded p -> successWritesNoStatus p.
Proof.
  intro Hp. unfold successWritesNoStatus.
  destruct (outcomeOf p) as [findings|error] eqn:Hout; [|exact I].
  intro s. exact (settle_guarded_success p s findings Hp Hout).
Qed.

(** C7: along the whole invocation, including the tasks that complete in
    the background after the call has settled, once the recorded status is
    [Failed] or [Cancelled] it is [Failed] or [Cancelled] at every later
    point; the status field is exactly what the recorded writes make it;
    and no promise built by the two fan-out functions writes the status
    when its scan succeeds. *)
Theorem status_is_monotonic (env : Env) (wd : Descriptors)
    (cc : nat -> Outcome unit) (t1 t2 : list Event) :
  let w := settleBackground env (snd (runScanWorkspace env wd cc)) in
  trace (store w) = t1 ++ t2 ->
  isFailedOrCancelled (statusAfter (initialStatus env) t1) = true ->
  isFailedOrCancelled (statusAfter (initialStatus env) (t1 ++ t2)) = true
  /\ sessionStatus (store w) = statusAfter (initialStatus env) (t1 ++ t2)
  /\ forall ss rs w0,
       Forall successWritesNoStatus
         (promisesOf (runDependenciesScans env wd cc w0)
          ++ promisesOf (runSourceCodeScans ss rs w0)).
Proof.
  cbv zeta. intros Htr Hterm.
  destruct (status_writes_recorded env wd cc) as (Hok & Hst).
  cbv zeta in *. rewrite Htr in Hok, Hst.
  split; [|split; [exact Hst|]].
  - rewrite statusAfter_app. apply statusAfter_stays_terminal; [|exact Hterm].
    rewrite forallb_app in Hok. apply andb_prop in Hok. tauto.
  - intros ss rs w0.
    eapply Forall_impl; [exact guarded_successWritesNoStatus|].
    apply Forall_app. split.
    + apply promisesOf_runDependenciesScans_guarded.
    + apply promisesOf_runSourceCodeScans_guarded.
Qed.

Lemma status_is_monotonic_witness :
  let run := runScanWorkspace lateFailureEnv sampleDescriptors (canceledAt 2) in
  let w := settleBackground lateFailureEnv (snd run) in
  let t1 := [EvStartStep 4; EvCheckCanceled; EvCheckCanceled;
             EvLaunch (DependencyScan "npm"%string ["a.json"%string]);
             EvCheckCanceled; EvSetStatus Cancelled] in
  let t2 := [EvEndScan Cancelled; EvSendUsageReport sampleDescriptors;
             EvLogErrorWithAnalytics (OtherError "npm"%string) true;
             EvSetStatus Failed] in
  isFailedOrCancelled (statusAfter (initialStatus lateFailureEnv) (t1 ++ t2))
  = true
  /\ sessionStatus (store w)
     = statusAfter (initialStatus lateFailureEnv) (t1 ++ t2)
  /\ forall ss rs w0,
       Forall successWritesNoStatus
         (promisesOf (runDependenciesScans lateFailureEnv sampleDescriptors
                        (canceledAt 2) w0)
          ++ promisesOf (runSourceCodeScans ss rs w0)).
Proof.
  cbv zeta.
  apply (status_is_monotonic lateFailureEnv sampleDescriptors (canceledAt 2));
    reflexivity.
Defined.

(** ** Runner fan-out (C8) *)

Lemma sharedParams_msi (id : option string) (ss : SupportedScans) :
  bagMsi (sharedParams id ss) = if truthyString id then id else None.
Proof.
  unfold sharedParams.
  destruct (truthyString id), (truthyBool (supportsTokenValidation ss));
    reflexivity.
Qed.

Lemma sharedParams_tokenValidation (id : option string) (ss : SupportedScans) :
  bagTokenValidation (sharedParams id ss)
  = if truthyBool (supportsTokenValidation ss)
    then supportsTokenValidation ss else None.
Proof.
  unfold sharedParams.
  destruct (truthyString id), (truthyBool (supportsTokenValidation ss));
    reflexivity.
Qed.

(** C8: [runSourceCodeScans] builds one parameter bag, which holds the
    correlation id exactly when the session's [multiScanId] is set (truthy)
    and the token-validation flag exactly when the discovered capabilities
    include it (truthy), is no bag at all when neither is, and launches, in
    list order, a scan of exactly the runners whose [shouldRun] is true,
    each with that bag and under the rejection callback. *)
Theorem runSourceCodeScans_shares_one_bag (ss : SupportedScans)
    (jasRunners : list JasRunner) (w : World) :
  let id := multiScanId (store w) in
  let params := sharedParams id ss in
  let r := runSourceCodeScans ss jasRunners w in
  bagMsi params = (if truthyString id then id else None)
  /\ bagTokenValidation params
     = (if truthyBool (supportsTokenValidation ss)
        then supportsTokenValidation ss else None)
  /\ (params = None
      <-> truthyString id = false
          /\ truthyBool (supportsTokenValidation ss) = false)
  /\ trace (store (snd r))
     = trace (store w)
       ++ map (fun runner => EvLaunch (JasScan (runnerName runner) params))
              (filter shouldRun jasRunners)
  /\ exists ps,
       fst r = Returns ps
       /\ Forall2 (fun runner p =>
                     exists pid,
                       p = Catch (Async pid (JasScan (runnerName runner) params)
                                        (scan runner params))
                                 onRunnerScanRejected)
                  (filter shouldRun jasRunners) ps.
Proof.
  cbv zeta. rewrite runSourceCodeScans_eq.
  split; [apply sharedParams_msi|].
  split; [apply sharedParams_tokenValidation|].
  split.
  { unfold sharedParams.
    destruct (truthyString (multiScanId (store w))),
      (truthyBool (supportsTokenValidation ss)); split;
      try discriminate; try (intros [? ?]; discriminate); auto. }
  destruct (runnerLoop_exact (sharedParams (multiScanId (store w)) ss)
              jasRunners [] w)
    as (ps & Hr & HF & Htr & _).
  cbv zeta in *. split; [exact Htr|].
  exists ps. split; [exact Hr|]. exact HF.
Qed.

Example runSourceCodeScans_skips_inapplicable :
  launchedTasks
    (trace (store (snd (runSourceCodeScans (mkSupported (Some true))
                          [sampleRunnerA; sampleRunnerSkipped; sampleRunnerB]
                          (newWorld sampleEnv)))))
  = [JasScan "A"%string (Some (mkParams None (Some true)));
     JasScan "B"%string (Some (mkParams None (Some true)))].
Proof. reflexivity. Qed.

(** ** The fan-out promises never reject (C10) *)

Lemma guarded_absorbsFailure (p : Promise) : guarded p -> absorbsFailure p.
Proof.
  intros [toast pid task outcome] s. rewrite settle_guardedScan.
  destruct outcome as [findings|error]; simpl.
  - repeat split.
  - split; [reflexivity|]. split; [reflexivity|]. exists toast. reflexivity.
Qed.

(** C10: every promise in the arrays returned by [runDependenciesScans] and
    [runSourceCodeScans] fulfils however the scan behind it ends, a failure
    having been logged and recorded as [Failed] by the attached callback;
    awaiting them jointly, in any completion order, returns; and the [try]
    block of [scanWorkspace] is only ever left by a throw of [startScan] or
    of a cancellation check, both raised before the joint wait. *)
Theorem fan_out_promises_never_reject (env : Env) (wd : Descriptors)
    (cc : nat -> Outcome unit) (ss : SupportedScans) (rs : list JasRunner)
    (w : World) :
  let ps := promisesOf (runDependenciesScans env wd cc w)
            ++ promisesOf (runSourceCodeScans ss rs w) in
  Forall absorbsFailure ps
  /\ (forall order w', fst (awaitPromiseAll order ps w') = Returns tt)
  /\ match fst (scanWorkspaceTry env ss rs wd cc (started env wd)) with
     | Returns _ => True
     | Throws error =>
         (getReportAnalytics env = true /\ startScan env = Throws error)
         \/ exists n, cc n = Throws error
     end.
Proof.
  cbv zeta.
  assert (Hg : Forall guarded
                 (promisesOf (runDependenciesScans env wd cc w)
                  ++ promisesOf (runSourceCodeScans ss rs w))).
  { apply Forall_app. split.
    - apply promisesOf_runDependenciesScans_guarded.
    - apply promisesOf_runSourceCodeScans_guarded. }
  split; [|split].
  - eapply Forall_impl; [|exact Hg]. exact guarded_absorbsFailure.
  - intros order w'. unfold awaitPromiseAll.
    apply (settleAll_guarded _ (guarded_schedule order _ Hg) w').
  - destruct (scanWorkspaceTry_general env ss rs wd cc (started env wd)
                (Forall_nil _))
      as (_ & _ & Hthrow).
    cbv zeta in Hthrow.
    destruct (fst (scanWorkspaceTry env ss rs wd cc (started env wd)))
      as [u|error]; [exact I|].
    apply Hthrow. reflexivity.
Qed.

(** The catch combinator does let a rejection through when the callback
    itself throws: the fulfilment above is a property of the two callbacks
    of the scan manager, not of the model of [.catch]. *)
Example catch_rethrowing_callback_rejects :
  fst (settle (Catch (Async 0 (DependencyScan "npm"%string []) (Fails ScanCancellationError))
                     (fun error => throw error))
              (store (newWorld sampleEnv)))
  = Rejected ScanCancellationError.
Proof. reflexivity. Qed.

(** A throw of [startScan] is reduced to [Failed] and finalization still
    runs. *)
Example startScan_failure_is_reduced_to_failed :
  let r := runScanWorkspace startScanFailsEnv sampleDescriptors neverCanceled in
  fst r = Throws (OtherError "analytics unavailable"%string)
  /\ trace (store (snd r))
     = [EvStartStep 4; EvStartScan; EvSetStatus Failed; EvEndScan Failed;
        EvSendUsageReport sampleDescriptors].
Proof. vm_compute. split; reflexivity. Qed.

(* ================================================================== *)
(** * Further properties of the scan manager *)

(** ** Task count *)

(** [calculateNumberOfTasks]: the test on the manifest lists changes
    nothing; the count is the number of manifests of all entries plus the
    number of runners. *)
Theorem calculateNumberOfTasks_counts_every_manifest
    (jasRunners : list JasRunner) (workspaceDescriptors : Descriptors) :
  calculateNumberOfTasks jasRunners workspaceDescriptors
  = list_sum (map (fun entry => length (snd entry)) workspaceDescriptors)
    + length jasRunners.
Proof.
  unfold calculateNumberOfTasks.
  rewrite manifest_count_eq, specifiedManifestCount_all. reflexivity.
Qed.

(** ** In-flight promises along the loops *)

Lemma filter_notPid_below (n : nat) (l : list Promise) :
  Forall (fun p => pidOf p < n) l -> filter (notPid n) l = l.
Proof.
  induction 1 as [|p l Hp _ IH]; simpl; [reflexivity|].
  unfold notPid at 1.
  destruct (Nat.eqb_spec (pidOf p) n) as [Heq|Hne]; [lia|].
  simpl. rewrite IH. reflexivity.
Qed.

Lemma launched_inflight (w : World) flag task outcome :
  freshPids w ->
  inflight (launched w flag task outcome)
  = inflight w ++ [guardedScan flag (nextPid w) task outcome]
  /\ freshPids (launched w flag task outcome).
Proof.
  intro Hf. unfold freshPids in *. simpl.
  rewrite (filter_notPid_below _ _ Hf). split; [reflexivity|].
  apply Forall_app. split.
  - eapply Forall_impl; [|exact Hf]. simpl. intros; lia.
  - constructor; [simpl; lia | constructor].
Qed.

Lemma fanOutCut_bound (cc : nat -> Outcome unit) (count : nat) :
  forall n, fst (fanOutCut cc n count) <= count.
Proof.
  induction count as [|c IH]; intro n; simpl; [lia|].
  destruct (cc n); simpl; [|lia].
  specialize (IH (S n)). destruct (fanOutCut cc (S n) c). simpl in *. lia.
Qed.

Lemma fanOutCut_stop_bound (cc : nat -> Outcome unit) (count : nat) :
  forall n error,
    snd (fanOutCut cc n count) = Some error ->
    fst (fanOutCut cc n count) < count.
Proof.
  induction count as [|c IH]; intros n error; simpl; [discriminate|].
  destruct (cc n); simpl; [|lia].
  specialize (IH (S n) error). destruct (fanOutCut cc (S n) c). simpl in *.
  intro H. specialize (IH H). lia.
Qed.

Lemma fanOutCut_none (cc : nat -> Outcome unit) (count : nat) :
  forall n,
    (forall i, i < count -> cc (n + i) = Returns tt) ->
    fanOutCut cc n count = (count, None).
Proof.
  induction count as [|c IH]; intros n H; simpl; [reflexivity|].
  pose proof (H 0 ltac:(lia)) as H0. rewrite Nat.add_0_r in H0. rewrite H0.
  rewrite IH; [reflexivity|].
  intros i Hi. replace (S n + i) with (n + S i) by lia. apply H. lia.
Qed.

Lemma fanOutCut_some (cc : nat -> Outcome unit) (count : nat) :
  forall n k error,
    k < count ->
    (forall i, i < k -> cc (n + i) = Returns tt) ->
    cc (n + k) = Throws error ->
    fanOutCut cc n count = (k, Some error).
Proof.
  induction count as [|c IH]; intros n k error Hk Hpass Hthrow; [lia|].
  simpl. destruct k as [|k].
  - rewrite Nat.add_0_r in Hthrow. rewrite Hthrow. reflexivity.
  - pose proof (Hpass 0 ltac:(lia)) as H0. rewrite Nat.add_0_r in H0.
    rewrite H0. rewrite (IH (S n) k error); [reflexivity|lia| |].
    + intros i Hi. replace (S n + i) with (n + S i) by lia. apply Hpass. lia.
    + replace (S n + k) with (n + S k) by lia. exact Hthrow.
Qed.

(** The dependency loop, cut where [fanOutCut] says: the promises of the
    entries it got through are returned, or lost to the throw, and in both
    cases stay in flight. *)
Lemma depLoop_cut (env : Env) (cc : nat -> Outcome unit) (wd : Descriptors) :
  forall (acc : list Promise) (w : World),
    freshPids w ->
    let r := forOf wd (dependencyScanStep env cc) acc w in
    let cut := fanOutCut cc (checks (store w)) (length wd) in
    freshPids (snd r)
    /\ trace (store (snd r))
       = trace (store w) ++ depEvents (firstn (fst cut) wd)
         ++ (match snd cut with Some _ => [EvCheckCanceled] | None => [] end)
    /\ checks (store (snd r))
       = checks (store w) + fst cut
         + (match snd cut with Some _ => 1 | None => 0 end)
    /\ exists ps,
         Forall2 (depPromise env) (firstn (fst cut) wd) ps
         /\ inflight (snd r) = inflight w ++ ps
         /\ fst r = match snd cut with
                    | Some error => Throws error
                    | None => Returns (acc ++ ps)
                    end.
Proof.
  induction wd as [|entry wd IH]; intros acc w Hf.
  - simpl. split; [exact Hf|]. rewrite !app_nil_r.
    split; [reflexivity|]. split; [lia|].
    exists []. rewrite !app_nil_r. repeat split. constructor.
  - cbv zeta. rewrite forOf_cons, dependencyScanStep_eq. cbv zeta.
    cbn [length fanOutCut].
    destruct (cc (checks (store w))) as [u|error] eqn:Hcc.
    + set (w1 := mkWorld (snd (callCheckCanceled cc (store w)))
                         (inflight w) (nextPid w)).
      assert (Hf1 : freshPids w1) by exact Hf.
      set (o := scanPackageDependencies env (fst entry) (snd entry)).
      destruct (launched_inflight w1 true (depTask entry) o Hf1)
        as (Hin2 & Hf2).
      specialize (IH (acc ++ [guardedScan true (nextPid w) (depTask entry) o])
                     (launched w1 true (depTask entry) o) Hf2).
      cbv zeta in IH.
      change (checks (store (launched w1 true (depTask entry) o)))
        with (S (checks (store w))) in IH.
      destruct (fanOutCut cc (S (checks (store w))) (length wd))
        as [k stop] eqn:Hcut.
      cbn [fst snd] in *.
      destruct IH as (Hfr & Htr & Hch & ps & HF & Hin & Hr).
      split; [exact Hfr|].
      split; [rewrite Htr; simpl; rewrite <- !app_assoc; reflexivity|].
      split; [rewrite Hch; lia|].
      exists (guardedScan true (nextPid w) (depTask entry) o :: ps).
      split; [constructor; [eexists; reflexivity | exact HF]|].
      split; [rewrite Hin, Hin2; simpl; rewrite <- app_assoc; reflexivity|].
      rewrite Hr. destruct stop; [reflexivity|].
      rewrite <- app_assoc. reflexivity.
    + cbn [fst snd firstn depEvents flat_map].
      split; [exact Hf|]. split; [reflexivity|].
      split; [simpl; lia|].
      exists []. rewrite app_nil_r. repeat split. constructor.
Qed.

Lemma runnerLoop_inflight (params : option BinaryEnvParams)
    (rs : list JasRunner) :
  forall (acc : list Promise) (w : World),
    freshPids w ->
    let r := forOf rs (sourceCodeScanStep params) acc w in
    freshPids (snd r)
    /\ checks (store (snd r)) = checks (store w)
    /\ exists ps,
         Forall2 (runnerPromise params) (filter shouldRun rs) ps
         /\ inflight (snd r) = inflight w ++ ps
         /\ fst r = Returns (acc ++ ps).
Proof.
  induction rs as [|runner rs IH]; intros acc w Hf.
  - simpl. split; [exact Hf|]. split; [reflexivity|].
    exists []. rewrite !app_nil_r. repeat split. constructor.
  - cbv zeta. rewrite forOf_cons, sourceCodeScanStep_eq. simpl.
    destruct (shouldRun runner) eqn:Hrun.
    + destruct (launched_inflight w false (runnerTask params runner)
                  (scan runner params) Hf) as (Hin1 & Hf1).
      destruct (IH (acc ++ [guardedScan false (nextPid w)
                              (runnerTask params runner) (scan runner params)])
                   _ Hf1)
        as (Hfr & Hch & ps & HF & Hin & Hr).
      cbv zeta in *.
      split; [exact Hfr|]. split; [rewrite Hch; reflexivity|].
      eexists (_ :: ps).
      split; [constructor; [eexists; reflexivity | exact HF]|].
      split; [rewrite Hin, Hin1; simpl; rewrite <- app_assoc; reflexivity|].
      rewrite Hr, <- app_assoc. reflexivity.
    + apply IH. exact Hf.
Qed.

(** ** The joint wait, exactly *)

Lemma filter_settledBy_cons (p : Promise) (ps l : list Promise) :
  filter (fun q => negb (settledBy ps q)) (filter (notPid (pidOf p)) l)
  = filter (fun q => negb (settledBy (p :: ps) q)) l.
Proof.
  induction l as [|q l IH]; simpl; [reflexivity|].
  unfold notPid at 1. rewrite (Nat.eqb_sym (pidOf p) (pidOf q)).
  destruct (pidOf q =? pidOf p); simpl; [exact IH|].
  destruct (settledBy ps q); simpl; [exact IH|]. rewrite IH. reflexivity.
Qed.

Lemma settleAll_guarded_exact (ps : list Promise) :
  Forall guarded ps ->
  forall w : World,
    let r := settleAll ps w in
    inflight (snd r) = filter (fun q => negb (settledBy ps q)) (inflight w)
    /\ checks (store (snd r)) = checks (store w)
    /\ sessionStatus (store (snd r))
       = (if existsb failing ps then Failed else sessionStatus (store w))
    /\ exists evs,
         trace (store (snd r)) = trace (store w) ++ evs
         /\ forallb isSettlementEvent evs = true
         /\ occurrences isLogError evs = length (filter failing ps).
Proof.
  induction 1 as [|p ps Hp Hps IH]; intro w.
  - simpl. split.
    { induction (inflight w) as [|q l IHl]; simpl; [reflexivity|].
      rewrite <- IHl. reflexivity. }
    split; [reflexivity|]. split; [reflexivity|].
    exists []. rewrite app_nil_r. repeat split.
  - cbv zeta. rewrite settleAll_cons. cbv zeta.
    rewrite (settle_guarded_fulfils p (store w) Hp).
    set (w1 := mkWorld _ _ _).
    destruct (IH w1) as (Hin & Hch & Hst & evs & Htr & Hok & Hlog).
    cbv zeta in *. clear IH.
    split; [rewrite Hin; apply filter_settledBy_cons|].
    destruct Hp as [flag pid task outcome].
    unfold w1 in *. clear w1. rewrite settle_guardedScan in *.
    cbn [existsb filter]. unfold failing at 1 3. cbn [outcomeOf guardedScan].
    destruct outcome as [findings|error]; cbn [failsB store checks
      sessionStatus trace orb fst snd] in *.
    + split; [exact Hch|]. split; [exact Hst|].
      exists evs. repeat split; assumption.
    + split; [exact Hch|].
      split; [rewrite Hst; destruct (existsb failing ps); reflexivity|].
      exists ([EvLogErrorWithAnalytics error flag; EvSetStatus Failed] ++ evs).
      split; [rewrite Htr, <- app_assoc; reflexivity|].
      split; [simpl; exact Hok|].
      unfold occurrences in *. simpl. rewrite Hlog. reflexivity.
Qed.

Lemma settledBy_self (ps : list Promise) (q : Promise) :
  In q ps -> settledBy ps q = true.
Proof.
  intro H. apply existsb_exists. exists q. split; [exact H|].
  apply Nat.eqb_refl.
Qed.

Lemma filter_all_settled (ps l : list Promise) :
  incl l ps -> filter (fun q => negb (settledBy ps q)) l = [].
Proof.
  induction l as [|q l IH]; intro H; simpl; [reflexivity|].
  rewrite (settledBy_self ps q (H q (or_introl eq_refl))). simpl.
  apply IH. intros x Hx. apply H. right. exact Hx.
Qed.

(** Counting over the promises the loops built. *)
Lemma failing_depPromises (env : Env) (wd : Descriptors) (ps : list Promise) :
  Forall2 (depPromise env) wd ps ->
  length (filter failing ps) = length (failedDependencyScans env wd)
  /\ flat_map deliveries ps = dependencyDeliveries env wd
  /\ map taskOf ps = map depTask wd.
Proof.
  unfold failedDependencyScans, dependencyDeliveries.
  induction 1 as [|entry p wd ps [pid ->] _ (IH1 & IH2 & IH3)];
    [repeat split|].
  cbn [filter flat_map map]. unfold failing at 1, deliveries at 1.
  cbn [outcomeOf taskOf guardedScan].
  rewrite IH2, IH3.
  destruct (scanPackageDependencies env (fst entry) (snd entry));
    cbn [failsB length app]; rewrite IH1; repeat split.
Qed.

Lemma failing_runnerPromises (params : option BinaryEnvParams)
    (rs : list JasRunner) (ps : list Promise) :
  Forall2 (runnerPromise params) (filter shouldRun rs) ps ->
  length (filter failing ps) = length (failedRunnerScans params rs)
  /\ flat_map deliveries ps = runnerDeliveries params rs
  /\ map taskOf ps = map (runnerTask params) (filter shouldRun rs).
Proof.
  unfold failedRunnerScans, runnerDeliveries.
  induction 1 as [|runner p l ps [pid ->] _ (IH1 & IH2 & IH3)];
    [repeat split|].
  cbn [filter flat_map map]. unfold failing at 1, deliveries at 1.
  cbn [outcomeOf taskOf guardedScan].
  rewrite IH2, IH3.
  destruct (scan runner params); cbn [failsB length app]; rewrite IH1;
    repeat split.
Qed.

Lemma filter_length_Permutation {A} (f : A -> bool) (l l' : list A) :
  Permutation l l' -> length (filter f l) = length (filter f l').
Proof.
  induction 1 as [|x l l' _ IH|x y l|l l' l'' _ IH1 _ IH2]; simpl.
  - reflexivity.
  - destruct (f x); simpl; rewrite IH; reflexivity.
  - destruct (f x), (f y); reflexivity.
  - rewrite IH1. exact IH2.
Qed.

Lemma existsb_length_filter {A} (f : A -> bool) (l : list A) :
  existsb f l = (0 <? length (filter f l)).
Proof.
  induction l as [|x l IH]; simpl; [reflexivity|].
  destruct (f x); simpl; [reflexivity | exact IH].
Qed.

Lemma flat_map_Permutation {A B} (f : A -> list B) (l l' : list A) :
  Permutation l l' -> Permutation (flat_map f l) (flat_map f l').
Proof.
  induction 1 as [|x l l' _ IH|x y l|l l' l'' _ IH1 _ IH2]; simpl.
  - apply Permutation_refl.
  - apply Permutation_app_head. exact IH.
  - rewrite !app_assoc. apply Permutation_app_tail, Permutation_app_comm.
  - eapply Permutation_trans; eassumption.
Qed.

(** ** The paths through the [try] block *)

Lemma fanOutCut_none_inv (cc : nat -> Outcome unit) (count : nat) :
  forall n, snd (fanOutCut cc n count) = None ->
            fst (fanOutCut cc n count) = count.
Proof.
  induction count as [|c IH]; intro n; simpl; [reflexivity|].
  destruct (cc n); simpl; [|discriminate].
  specialize (IH (S n)). destruct (fanOutCut cc (S n) c). simpl in *.
  intro H. rewrite (IH H). reflexivity.
Qed.

Lemma startStage_returns (env : Env) (w : World) :
  (getReportAnalytics env = false \/ exists m, startScan env = Returns m) ->
  let r := startStage env w in
  fst r = Returns tt
  /\ trace (store (snd r)) = trace (store w) ++ startEvents env
  /\ inflight (snd r) = inflight w
  /\ nextPid (snd r) = nextPid w
  /\ checks (store (snd r)) = checks (store w)
  /\ sessionStatus (store (snd r)) = sessionStatus (store w)
  /\ scanResults (store (snd r)) = scanResults (store w).
Proof.
  intro Hstart. cbv zeta. rewrite startStage_eq. cbv zeta.
  unfold startEvents. destruct (getReportAnalytics env).
  - destruct Hstart as [H|[m Hm]]; [discriminate|]. rewrite Hm. simpl.
    repeat split.
  - simpl. rewrite app_nil_r. repeat split.
Qed.

(** The start stage throws: nothing else happens in the block. *)
Lemma scanWorkspaceTry_startScan_fails (env : Env) (ss : SupportedScans)
    (rs : list JasRunner) (wd : Descriptors) (cc : nat -> Outcome unit)
    (w : World) (error : Error) :
  getReportAnalytics env = true ->
  startScan env = Throws error ->
  let r := scanWorkspaceTry env ss rs wd cc w in
  fst r = Throws error
  /\ trace (store (snd r)) = trace (store w) ++ [EvStartScan]
  /\ inflight (snd r) = inflight w
  /\ sessionStatus (store (snd r)) = sessionStatus (store w)
  /\ scanResults (store (snd r)) = scanResults (store w).
Proof.
  intros Ha Hs. cbv zeta. unfold scanWorkspaceTry. fold (startStage env).
  rewrite bind_eq, startStage_eq. cbv zeta. rewrite Ha, Hs. simpl.
  repeat split.
Qed.

(** A check of the dependency loop throws. *)
Lemma scanWorkspaceTry_cancelled_in_loop (env : Env) (ss : SupportedScans)
    (rs : list JasRunner) (wd : Descriptors) (cc : nat -> Outcome unit)
    (w : World) (error : Error) :
  inflight w = [] ->
  (getReportAnalytics env = false \/ exists m, startScan env = Returns m) ->
  cc (checks (store w)) = Returns tt ->
  snd (fanOutCut cc (S (checks (store w))) (length wd)) = Some error ->
  let r := scanWorkspaceTry env ss rs wd cc w in
  let k := fst (fanOutCut cc (S (checks (store w))) (length wd)) in
  fst r = Throws error
  /\ trace (store (snd r))
     = trace (store w) ++ startEvents env ++ [EvCheckCanceled]
       ++ depEvents (firstn k wd) ++ [EvCheckCanceled]
  /\ Forall2 (depPromise env) (firstn k wd) (inflight (snd r))
  /\ sessionStatus (store (snd r)) = sessionStatus (store w)
  /\ scanResults (store (snd r)) = scanResults (store w).
Proof.
  intros Hnone Hstart Hcc Hcut. cbv zeta.
  unfold scanWorkspaceTry. fold (startStage env). rewrite bind_eq.
  destruct (startStage_returns env w Hstart)
    as (HrA & HtrA & HinA & _ & HchA & HstA & HresA).
  destruct (startStage env w) as [rA w1]. cbn [fst snd] in *. subst rA.
  rewrite bind_eq, checkStage_eq, HchA, Hcc.
  set (w2 := mkWorld (snd (callCheckCanceled cc (store w1))) _ _).
  assert (Hf2 : freshPids w2).
  { unfold freshPids, w2. simpl. rewrite HinA, Hnone. constructor. }
  rewrite bind_eq. unfold runDependenciesScans.
  destruct (depLoop_cut env cc wd [] w2 Hf2) as (_ & Htr & _ & ps & HF & Hin & Hr).
  destruct (depLoop_exact env cc wd [] w2)
    as (_ & _ & _ & _ & Hst & _ & Hres & _).
  cbv zeta in *.
  change (checks (store w2)) with (S (checks (store w1))) in *.
  rewrite HchA in *. rewrite Hcut in *.
  destruct (forOf wd (dependencyScanStep env cc) [] w2) as [rC w3].
  cbn [fst snd] in *. subst rC. cbv iota beta. cbn [fst snd].
  split; [reflexivity|].
  split.
  { rewrite Htr. unfold w2. simpl. rewrite HtrA, <- !app_assoc. reflexivity. }
  split.
  { rewrite Hin. unfold w2. simpl. rewrite HinA, Hnone. exact HF. }
  split; [rewrite Hst; unfold w2; simpl; exact HstA|].
  rewrite Hres. unfold w2. simpl. exact HresA.
Qed.

(** The fan-out completes: every check returns. *)
Lemma scanWorkspaceTry_completed_exact (env : Env) (ss : SupportedScans)
    (rs : list JasRunner) (wd : Descriptors) (cc : nat -> Outcome unit)
    (w : World) :
  inflight w = [] ->
  (getReportAnalytics env = false \/ exists m, startScan env = Returns m) ->
  cc (checks (store w)) = Returns tt ->
  snd (fanOutCut cc (S (checks (store w))) (length wd)) = None ->
  let r := scanWorkspaceTry env ss rs wd cc w in
  let s' := store (snd r) in
  let params := sharedParams (multiScanId s') ss in
  let failures := length (failedDependencyScans env wd)
                  + length (failedRunnerScans params rs) in
  fst r = Returns tt
  /\ inflight (snd r) = []
  /\ (exists evs,
        trace s'
        = trace (store w) ++ startEvents env ++ [EvCheckCanceled]
          ++ depEvents wd ++ runnerLaunches params rs ++ evs
        /\ forallb isSettlementEvent evs = true
        /\ occurrences isLogError evs = failures)
  /\ sessionStatus s'
     = (if 0 <? failures then Failed else sessionStatus (store w))
  /\ Permutation (scanResults s')
       (scanResults (store w) ++ dependencyDeliveries env wd
        ++ runnerDeliveries params rs).
Proof.
  intros Hnone Hstart Hcc Hcut. cbv zeta.
  unfold scanWorkspaceTry. fold (startStage env). rewrite bind_eq.
  destruct (startStage_returns env w Hstart)
    as (HrA & HtrA & HinA & _ & HchA & HstA & HresA).
  destruct (startStage env w) as [rA w1]. cbn [fst snd] in *. subst rA.
  rewrite bind_eq, checkStage_eq, HchA, Hcc.
  set (w2 := mkWorld (snd (callCheckCanceled cc (store w1))) _ _).
  assert (Hf2 : freshPids w2).
  { unfold freshPids, w2. simpl. rewrite HinA, Hnone. constructor. }
  assert (Hin2 : inflight w2 = []) by (unfold w2; simpl; congruence).
  assert (Htr2 : trace (store w2)
                 = trace (store w) ++ startEvents env ++ [EvCheckCanceled]).
  { unfold w2. simpl. rewrite HtrA, <- app_assoc. reflexivity. }
  assert (Hst2 : sessionStatus (store w2) = sessionStatus (store w))
    by (unfold w2; simpl; exact HstA).
  assert (Hres2 : scanResults (store w2) = scanResults (store w))
    by (unfold w2; simpl; exact HresA).
  rewrite bind_eq. unfold runDependenciesScans.
  destruct (depLoop_cut env cc wd [] w2 Hf2)
    as (Hf3 & HtrC & _ & deps & HFC & HinC & HrC).
  destruct (depLoop_exact env cc wd [] w2)
    as (_ & _ & _ & _ & HstC & HidC & HresC & _).
  cbv zeta in *.
  change (checks (store w2)) with (S (checks (store w1))) in *.
  rewrite HchA in *.
  rewrite (fanOutCut_none_inv cc (length wd) _ Hcut) in *.
  rewrite Hcut, firstn_all, app_nil_r in *.
  destruct (forOf wd (dependencyScanStep env cc) [] w2) as [rC w3].
  cbn [fst snd] in *. subst rC. cbv iota beta.
  rewrite bind_eq, runSourceCodeScans_eq.
  set (params := sharedParams (multiScanId (store w3)) ss).
  destruct (runnerLoop_inflight params rs [] w3 Hf3)
    as (_ & _ & runs & HFD & HinD & HrD).
  destruct (runnerLoop_exact params rs [] w3)
    as (_ & _ & _ & HtrD & HstD & HidD & HresD & _).
  cbv zeta in *.
  destruct (forOf rs (sourceCodeScanStep params) [] w3) as [rD w4].
  cbn [fst snd] in *. subst rD. cbv iota beta.
  unfold awaitPromiseAll. cbn [app].
  set (order := schedule (completionOrder env) (deps ++ runs)).
  assert (Hperm : Permutation (deps ++ runs) order)
    by apply schedule_Permutation.
  assert (Hall : Forall guarded order).
  { apply guarded_schedule, Forall_app. split.
    - eapply depPromise_guarded. exact HFC.
    - eapply runnerPromise_guarded. exact HFD. }
  destruct (settleAll_guarded order Hall w4)
    as (HrE & _ & HresE & HidE & _ & _).
  destruct (settleAll_guarded_exact order Hall w4)
    as (HinE & _ & HstE & evs & HtrE & Hok & Hlog).
  cbv zeta in *.
  destruct (failing_depPromises env wd deps HFC) as (HfailC & HdelC & _).
  destruct (failing_runnerPromises params rs runs HFD) as (HfailD & HdelD & _).
  assert (Hparams : sharedParams
                      (multiScanId (store (snd (settleAll order w4)))) ss
                    = params).
  { unfold params. rewrite HidE, HidD. reflexivity. }
  rewrite Hparams.
  assert (Hcount : length (filter failing order)
                   = length (failedDependencyScans env wd)
                     + length (failedRunnerScans params rs)).
  { rewrite <- (filter_length_Permutation failing _ _ Hperm).
    rewrite filter_app, length_app, HfailC, HfailD. reflexivity. }
  split; [exact HrE|].
  split.
  { rewrite HinE. apply filter_all_settled.
    rewrite HinD, HinC, Hin2. simpl.
    intros q Hq. eapply Permutation_in; [exact Hperm | exact Hq]. }
  split.
  { exists evs. split; [|split; [exact Hok | rewrite Hlog; exact Hcount]].
    rewrite HtrE, HtrD, HtrC, Htr2. unfold runnerLaunches.
    rewrite <- !app_assoc. reflexivity. }
  split.
  { rewrite HstE, existsb_length_filter, Hcount, HstD, HstC, Hst2.
    reflexivity. }
  rewrite HresE, HresD, HresC, Hres2.
  apply Permutation_app_head.
  rewrite <- HdelC, <- HdelD, <- flat_map_app.
  apply Permutation_sym, flat_map_Permutation. exact Hperm.
Qed.

(** ** Runs that return *)

Lemma fanOutCut_none_passes (cc : nat -> Outcome unit) (count : nat) :
  forall n,
    snd (fanOutCut cc n count) = None ->
    forall i, i < count -> cc (n + i) = Returns tt.
Proof.
  induction count as [|c IH]; intros n Hcut i Hi; [lia|].
  simpl in Hcut. destruct (cc n) as [[]|e] eqn:Hcc; [|discriminate].
  destruct i as [|i].
  - rewrite Nat.add_0_r. exact Hcc.
  - replace (n + S i) with (S n + i) by lia. apply IH; [|lia].
    destruct (fanOutCut cc (S n) c). exact Hcut.
Qed.

Lemma runScanWorkspace_outcome (env : Env) (wd : Descriptors)
    (cc : nat -> Outcome unit) (ss : SupportedScans) :
  getSupportedScans env = Returns ss ->
  fst (runScanWorkspace env wd cc)
  = fst (scanWorkspaceTry env ss (createJasRunner env) wd cc (started env wd)).
Proof.
  intro Hss. rewrite (runScanWorkspace_eq env wd cc ss Hss).
  destruct (scanWorkspaceTry env ss (createJasRunner env) wd cc (started env wd))
    as [[u|error] w1]; reflexivity.
Qed.

(** A run that returns went through the whole fan-out: [startScan], if
    called, and every cancellation check returned. *)
Lemma returned_run_completed (env : Env) (wd : Descriptors)
    (cc : nat -> Outcome unit) (ss : SupportedScans) :
  getSupportedScans env = Returns ss ->
  fst (runScanWorkspace env wd cc) = Returns tt ->
  (getReportAnalytics env = false \/ exists m, startScan env = Returns m)
  /\ cc 0 = Returns tt
  /\ snd (fanOutCut cc 1 (length wd)) = None.
Proof.
  intros Hss Hret. rewrite (runScanWorkspace_outcome env wd cc ss Hss) in Hret.
  assert (Hstart : getReportAnalytics env = false
                   \/ exists m, startScan env = Returns m).
  { destruct (getReportAnalytics env) eqn:Ha; [|left; reflexivity].
    destruct (startScan env) as [m|e] eqn:Hs; [right; exists m; reflexivity|].
    destruct (scanWorkspaceTry_startScan_fails env ss (createJasRunner env)
                wd cc (started env wd) e Ha Hs) as (Hr & _).
    rewrite Hr in Hret. discriminate. }
  split; [exact Hstart|].
  assert (Hcc : cc 0 = Returns tt).
  { destruct (cc 0) as [[]|e] eqn:Hcc; [reflexivity|].
    destruct (scanWorkspaceTry_cancelled_at_entry env ss (createJasRunner env)
                wd cc (started env wd) e Hstart Hcc) as (Hr & _).
    rewrite Hr in Hret. discriminate. }
  split; [exact Hcc|].
  destruct (snd (fanOutCut cc 1 (length wd))) as [e|] eqn:Hcut; [|reflexivity].
  destruct (scanWorkspaceTry_cancelled_in_loop env ss (createJasRunner env)
              wd cc (started env wd) e eq_refl Hstart Hcc Hcut) as (Hr & _).
  rewrite Hr in Hret. discriminate.
Qed.

(** Everything that is known of a run that returned. *)
Lemma runScanWorkspace_completed (env : Env) (wd : Descriptors)
    (cc : nat -> Outcome unit) (ss : SupportedScans) :
  getSupportedScans env = Returns ss ->
  fst (runScanWorkspace env wd cc) = Returns tt ->
  let w := snd (runScanWorkspace env wd cc) in
  let rs := createJasRunner env in
  let params := sharedParams (multiScanId (store w)) ss in
  let failures := length (failedDependencyScans env wd)
                  + length (failedRunnerScans params rs) in
  inflight w = []
  /\ (exists evs,
        trace (store w)
        = [EvStartStep (calculateNumberOfTasks rs wd)] ++ startEvents env
          ++ [EvCheckCanceled] ++ depEvents wd ++ runnerLaunches params rs
          ++ evs
          ++ [EvEndScan (sessionStatus (store w)); EvSendUsageReport wd]
        /\ forallb isSettlementEvent evs = true
        /\ occurrences isLogError evs = failures)
  /\ sessionStatus (store w)
     = (if 0 <? failures then Failed else initialStatus env)
  /\ Permutation (scanResults (store w))
       (dependencyDeliveries env wd ++ runnerDeliveries params rs).
Proof.
  intros Hss Hret.
  destruct (returned_run_completed env wd cc ss Hss Hret)
    as (Hstart & Hcc & Hcut).
  cbv zeta. rewrite (runScanWorkspace_eq env wd cc ss Hss).
  destruct (scanWorkspaceTry_completed_exact env ss (createJasRunner env) wd cc
              (started env wd) eq_refl Hstart Hcc Hcut)
    as (Hr & Hin & (evs & Htr & Hok & Hlog) & Hst & Hres).
  cbv zeta in *.
  destruct (scanWorkspaceTry env ss (createJasRunner env) wd cc (started env wd))
    as [r1 w1]. cbn [fst snd] in *. subst r1. cbn [fst snd].
  destruct (finalized_store wd w1) as (Hs & Hi). rewrite Hs, Hi.
  cbn [store sessionStatus multiScanId scanResults trace].
  split; [exact Hin|].
  split.
  { exists evs. split; [|split; assumption].
    rewrite Htr. cbn [started store trace]. rewrite <- !app_assoc.
    reflexivity. }
  split; [exact Hst|]. exact Hres.
Qed.

(** ** Reading the trace of a run *)

Lemma occurrences_app (f : Event -> bool) (a b : list Event) :
  occurrences f (a ++ b) = occurrences f a + occurrences f b.
Proof. unfold occurrences. rewrite filter_app, length_app. reflexivity. Qed.

Lemma launchedTasks_app (a b : list Event) :
  launchedTasks (a ++ b) = launchedTasks a ++ launchedTasks b.
Proof. apply flat_map_app. Qed.

Lemma occurrences_excluded (f g : Event -> bool) (evs : list Event) :
  (forall ev, g ev = true -> f ev = false) ->
  forallb g evs = true -> occurrences f evs = 0.
Proof.
  intros Hfg. unfold occurrences.
  induction evs as [|ev evs IH]; simpl; [reflexivity|].
  intro H. apply andb_prop in H. destruct H as [Hev H].
  rewrite (Hfg ev Hev). apply IH, H.
Qed.

Lemma launchedTasks_settlement (evs : list Event) :
  forallb isSettlementEvent evs = true -> launchedTasks evs = [].
Proof.
  induction evs as [|ev evs IH]; simpl; [reflexivity|].
  intro H. apply andb_prop in H. destruct H as [Hev H].
  rewrite (IH H). destruct ev; simpl in *; try discriminate; reflexivity.
Qed.

Lemma depEvents_checks (l : Descriptors) :
  occurrences isCheckCanceled (depEvents l) = length l.
Proof.
  unfold occurrences. induction l; simpl; [reflexivity|]. rewrite IHl.
  reflexivity.
Qed.

Lemma depEvents_launches (l : Descriptors) :
  launchedTasks (depEvents l) = map depTask l.
Proof. induction l; simpl; [reflexivity|]. rewrite IHl. reflexivity. Qed.

Lemma depEvents_other (f : Event -> bool) (l : Descriptors) :
  f EvCheckCanceled = false -> (forall t, f (EvLaunch t) = false) ->
  occurrences f (depEvents l) = 0.
Proof.
  intros Hc Hl. unfold occurrences.
  induction l; simpl; [reflexivity|]. rewrite Hc, Hl. exact IHl.
Qed.

Lemma runnerLaunches_launches params (rs : list JasRunner) :
  launchedTasks (runnerLaunches params rs)
  = map (runnerTask params) (filter shouldRun rs).
Proof.
  unfold runnerLaunches.
  induction (filter shouldRun rs) as [|r l IH]; simpl; [reflexivity|].
  rewrite IH. reflexivity.
Qed.

Lemma runnerLaunches_other (f : Event -> bool) params (rs : list JasRunner) :
  (forall t, f (EvLaunch t) = false) ->
  occurrences f (runnerLaunches params rs) = 0.
Proof.
  intro Hl. unfold occurrences, runnerLaunches.
  induction (filter shouldRun rs) as [|r l IH]; simpl; [reflexivity|].
  rewrite Hl. exact IH.
Qed.

Lemma startEvents_other (f : Event -> bool) (env : Env) :
  f EvStartScan = false -> occurrences f (startEvents env) = 0.
Proof.
  intro H. unfold occurrences, startEvents.
  destruct (getReportAnalytics env); simpl; [rewrite H|]; reflexivity.
Qed.

Lemma startEvents_launches (env : Env) : launchedTasks (startEvents env) = [].
Proof. unfold startEvents. destruct (getReportAnalytics env); reflexivity. Qed.

(** ** What a returned run has done *)

(** On a run that returns, the launches are one dependency scan per entry
    of the mapping, in its iteration order, followed by one scan per
    applicable runner, in list order. *)
Theorem launches_follow_iteration_order (env : Env) (wd : Descriptors)
    (cc : nat -> Outcome unit) (ss : SupportedScans) :
  getSupportedScans env = Returns ss ->
  fst (runScanWorkspace env wd cc) = Returns tt ->
  let w := snd (runScanWorkspace env wd cc) in
  let params := sharedParams (multiScanId (store w)) ss in
  launchedTasks (trace (store w))
  = map depTask wd
    ++ map (runnerTask params) (filter shouldRun (createJasRunner env)).
Proof.
  intros Hss Hret.
  destruct (runScanWorkspace_completed env wd cc ss Hss Hret)
    as (_ & (evs & Htr & Hok & _) & _).
  cbv zeta in *. rewrite Htr. rewrite !launchedTasks_app.
  rewrite startEvents_launches, depEvents_launches, runnerLaunches_launches,
    (launchedTasks_settlement evs Hok).
  simpl. rewrite app_nil_r. reflexivity.
Qed.

Lemma launches_follow_iteration_order_witness :
  let w := snd (runScanWorkspace sampleEnv sampleDescriptors neverCanceled) in
  let params := sharedParams (multiScanId (store w)) (mkSupported (Some true)) in
  launchedTasks (trace (store w))
  = map depTask sampleDescriptors
    ++ map (runnerTask params) (filter shouldRun (createJasRunner sampleEnv)).
Proof.
  apply (launches_follow_iteration_order sampleEnv sampleDescriptors
           neverCanceled (mkSupported (Some true))); reflexivity.
Defined.

(** On a run that returns, [checkCanceled] has been invoked once before
    the fan-out and once per entry of the mapping, and never afterwards. *)
Theorem checkCanceled_once_per_entry_plus_one (env : Env) (wd : Descriptors)
    (cc : nat -> Outcome unit) (ss : SupportedScans) :
  getSupportedScans env = Returns ss ->
  fst (runScanWorkspace env wd cc) = Returns tt ->
  occurrences isCheckCanceled
    (trace (store (snd (runScanWorkspace env wd cc))))
  = 1 + length wd.
Proof.
  intros Hss Hret.
  destruct (runScanWorkspace_completed env wd cc ss Hss Hret)
    as (_ & (evs & Htr & Hok & _) & _).
  cbv zeta in *. rewrite Htr. rewrite !occurrences_app.
  rewrite (startEvents_other isCheckCanceled env eq_refl), depEvents_checks,
    (runnerLaunches_other isCheckCanceled _ _ (fun _ => eq_refl)),
    (occurrences_excluded isCheckCanceled isSettlementEvent evs).
  - unfold occurrences. simpl. lia.
  - intros ev Hev. destruct ev; try discriminate; reflexivity.
  - exact Hok.
Qed.

Lemma checkCanceled_once_per_entry_plus_one_witness :
  occurrences isCheckCanceled
    (trace (store (snd (runScanWorkspace sampleEnv sampleDescriptors
                          neverCanceled))))
  = 1 + length sampleDescriptors.
Proof.
  apply (checkCanceled_once_per_entry_plus_one sampleEnv sampleDescriptors
           neverCanceled (mkSupported (Some true))); reflexivity.
Defined.

(** When [scanWorkspace] returns, no launched scan is still pending:
    nothing is in flight, so nothing can touch the session afterwards. *)
Theorem nothing_in_flight_after_return (env : Env) (wd : Descriptors)
    (cc : nat -> Outcome unit) (ss : SupportedScans) :
  getSupportedScans env = Returns ss ->
  fst (runScanWorkspace env wd cc) = Returns tt ->
  inflight (snd (runScanWorkspace env wd cc)) = []
  /\ settleBackground env (snd (runScanWorkspace env wd cc))
     = snd (runScanWorkspace env wd cc).
Proof.
  intros Hss Hret.
  destruct (runScanWorkspace_completed env wd cc ss Hss Hret) as (Hin & _).
  cbv zeta in Hin. split; [exact Hin|].
  unfold settleBackground. rewrite Hin. reflexivity.
Qed.

Lemma nothing_in_flight_after_return_witness :
  inflight (snd (runScanWorkspace sampleEnv sampleDescriptors neverCanceled))
  = []
  /\ settleBackground sampleEnv
       (snd (runScanWorkspace sampleEnv sampleDescriptors neverCanceled))
     = snd (runScanWorkspace sampleEnv sampleDescriptors neverCanceled).
Proof.
  apply (nothing_in_flight_after_return sampleEnv sampleDescriptors
           neverCanceled (mkSupported (Some true))); reflexivity.
Defined.

(** When [scanWorkspace] returns, the session status is [Failed] if a
    launched scan failed and otherwise still the one the session was
    created with; that is the status [endScan] was called with. *)
Theorem returned_status (env : Env) (wd : Descriptors)
    (cc : nat -> Outcome unit) (ss : SupportedScans) :
  getSupportedScans env = Returns ss ->
  fst (runScanWorkspace env wd cc) = Returns tt ->
  let w := snd (runScanWorkspace env wd cc) in
  let params := sharedParams (multiScanId (store w)) ss in
  let failures := length (failedDependencyScans env wd)
                  + length (failedRunnerScans params (createJasRunner env)) in
  let st := if 0 <? failures then Failed else initialStatus env in
  sessionStatus (store w) = st
  /\ exists pre,
       trace (store w) = pre ++ [EvEndScan st; EvSendUsageReport wd].
Proof.
  intros Hss Hret.
  destruct (runScanWorkspace_completed env wd cc ss Hss Hret)
    as (_ & (evs & Htr & _) & Hst & _).
  cbv zeta in *. split; [exact Hst|].
  rewrite <- Hst.
  eexists. etransitivity; [exact Htr|].
  rewrite !app_assoc. reflexivity.
Qed.

Lemma returned_status_witness :
  let w := snd (runScanWorkspace sampleEnv sampleDescriptors neverCanceled) in
  let params := sharedParams (multiScanId (store w)) (mkSupported (Some true)) in
  let failures := length (failedDependencyScans sampleEnv sampleDescriptors)
                  + length (failedRunnerScans params
                              (createJasRunner sampleEnv)) in
  let st := if 0 <? failures then Failed else initialStatus sampleEnv in
  sessionStatus (store w) = st
  /\ exists pre,
       trace (store w)
       = pre ++ [EvEndScan st; EvSendUsageReport sampleDescriptors].
Proof.
  apply (returned_status sampleEnv sampleDescriptors neverCanceled
           (mkSupported (Some true))); reflexivity.
Defined.

(** When [scanWorkspace] returns, the logger has been called exactly once
    for each launched scan that failed, and not otherwise. *)
Theorem each_failure_logged_once (env : Env) (wd : Descriptors)
    (cc : nat -> Outcome unit) (ss : SupportedScans) :
  getSupportedScans env = Returns ss ->
  fst (runScanWorkspace env wd cc) = Returns tt ->
  let w := snd (runScanWorkspace env wd cc) in
  let params := sharedParams (multiScanId (store w)) ss in
  occurrences isLogError (trace (store w))
  = length (failedDependencyScans env wd)
    + length (failedRunnerScans params (createJasRunner env)).
Proof.
  intros Hss Hret.
  destruct (runScanWorkspace_completed env wd cc ss Hss Hret)
    as (_ & (evs & Htr & _ & Hlog) & _).
  cbv zeta in *. rewrite Htr. rewrite !occurrences_app.
  rewrite (startEvents_other isLogError env eq_refl),
    (depEvents_other isLogError wd eq_refl (fun _ => eq_refl)),
    (runnerLaunches_other isLogError _ _ (fun _ => eq_refl)), Hlog.
  unfold occurrences. simpl. lia.
Qed.

Lemma each_failure_logged_once_witness :
  let w := snd (runScanWorkspace sampleEnv sampleDescriptors neverCanceled) in
  let params := sharedParams (multiScanId (store w)) (mkSupported (Some true)) in
  occurrences isLogError (trace (store w))
  = length (failedDependencyScans sampleEnv sampleDescriptors)
    + length (failedRunnerScans params (createJasRunner sampleEnv)).
Proof.
  apply (each_failure_logged_once sampleEnv sampleDescriptors neverCanceled
           (mkSupported (Some true))); reflexivity.
Defined.

(** When [scanWorkspace] returns, the accumulator holds, in completion
    order, exactly one entry for each launched scan that succeeded, and
    nothing from a scan that failed. *)
Theorem accumulator_holds_the_successes (env : Env) (wd : Descriptors)
    (cc : nat -> Outcome unit) (ss : SupportedScans) :
  getSupportedScans env = Returns ss ->
  fst (runScanWorkspace env wd cc) = Returns tt ->
  let w := snd (runScanWorkspace env wd cc) in
  let params := sharedParams (multiScanId (store w)) ss in
  Permutation (scanResults (store w))
    (dependencyDeliveries env wd
     ++ runnerDeliveries params (createJasRunner env)).
Proof.
  intros Hss Hret.
  destruct (runScanWorkspace_completed env wd cc ss Hss Hret)
    as (_ & _ & _ & Hres).
  exact Hres.
Qed.

Lemma accumulator_holds_the_successes_witness :
  let w := snd (runScanWorkspace sampleEnv sampleDescriptors neverCanceled) in
  let params := sharedParams (multiScanId (store w)) (mkSupported (Some true)) in
  Permutation (scanResults (store w))
    (dependencyDeliveries sampleEnv sampleDescriptors
     ++ runnerDeliveries params (createJasRunner sampleEnv)).
Proof.
  apply (accumulator_holds_the_successes sampleEnv sampleDescriptors
           neverCanceled (mkSupported (Some true))); reflexivity.
Defined.

(** [scanWorkspace] returns exactly when capability discovery resolves,
    [startScan] is not called or resolves, and the first [1 + n] cancellation
    checks return, [n] being the number of entries of the mapping; what the
    scans themselves do plays no part. *)
Theorem scanWorkspace_returns_iff (env : Env) (wd : Descriptors)
    (cc : nat -> Outcome unit) :
  fst (runScanWorkspace env wd cc) = Returns tt
  <-> (exists ss, getSupportedScans env = Returns ss)
      /\ (getReportAnalytics env = false \/ exists m, startScan env = Returns m)
      /\ (forall n, n <= length wd -> cc n = Returns tt).
Proof.
  split.
  - intro Hret.
    destruct (getSupportedScans env) as [ss|error] eqn:Hss.
    + destruct (returned_run_completed env wd cc ss Hss Hret)
        as (Hstart & Hcc & Hcut).
      split; [exists ss; reflexivity|]. split; [exact Hstart|].
      intros [|n] Hn; [exact Hcc|].
      apply (fanOutCut_none_passes cc (length wd) 1 Hcut n). lia.
    + rewrite (runScanWorkspace_discovery_fails env wd cc error Hss) in Hret.
      discriminate.
  - intros ((ss & Hss) & Hstart & Hcc).
    rewrite (runScanWorkspace_outcome env wd cc ss Hss).
    apply (scanWorkspaceTry_completed_exact env ss (createJasRunner env) wd cc
             (started env wd) eq_refl Hstart (Hcc 0 ltac:(lia))).
    cbn [started store checks].
    rewrite (fanOutCut_none cc (length wd) 1); [reflexivity|].
    intros i Hi. apply Hcc. simpl. lia.
Qed.

(** ** Runs that are interrupted *)

Lemma runScanWorkspace_after_try (env : Env) (wd : Descriptors)
    (cc : nat -> Outcome unit) (ss : SupportedScans) :
  getSupportedScans env = Returns ss ->
  let t := scanWorkspaceTry env ss (createJasRunner env) wd cc (started env wd) in
  let w := snd (runScanWorkspace env wd cc) in
  fst (runScanWorkspace env wd cc) = fst t
  /\ inflight w = inflight (snd t)
  /\ scanResults (store w) = scanResults (store (snd t))
  /\ sessionStatus (store w)
     = match fst t with
       | Returns _ => sessionStatus (store (snd t))
       | Throws error => statusFor error
       end
  /\ trace (store w)
     = trace (store (snd t)) ++ caughtEvents (fst t)
       ++ [EvEndScan (sessionStatus (store w)); EvSendUsageReport wd].
Proof.
  intro Hss. cbv zeta. rewrite (runScanWorkspace_eq env wd cc ss Hss).
  destruct (scanWorkspaceTry env ss (createJasRunner env) wd cc (started env wd))
    as [[u|error] w1]; cbn [fst snd].
  - destruct (finalized_store wd w1) as (Hs & Hi). rewrite Hs, Hi. simpl.
    repeat split.
  - destruct (finalized_store wd (caught error w1)) as (Hs & Hi).
    destruct (caught_store error w1) as (Hs' & Hi').
    rewrite Hs, Hi, Hs', Hi'. simpl. rewrite <- app_assoc. repeat split.
Qed.

Lemma cut_in_loop (cc : nat -> Outcome unit) (wd : Descriptors) (k : nat)
    (error : Error) :
  k < length wd ->
  (forall n, n <= k -> cc n = Returns tt) ->
  cc (S k) = Throws error ->
  cc 0 = Returns tt /\ fanOutCut cc 1 (length wd) = (k, Some error).
Proof.
  intros Hk Hpass Hthrow. split; [apply Hpass; lia|].
  apply fanOutCut_some; [exact Hk| |exact Hthrow].
  intros i Hi. apply Hpass. simpl. lia.
Qed.

(** If the check made before the launch of entry number [k] (from 0) of the
    mapping throws, the scans of the [k] entries before it have been
    launched and are still pending when the call rejects, no runner has
    been launched, no result and no failure has been recorded, and the
    status is the one the thrown condition reduces to. *)
Theorem cancellation_during_fan_out (env : Env) (wd : Descriptors)
    (cc : nat -> Outcome unit) (ss : SupportedScans) (k : nat)
    (error : Error) :
  getSupportedScans env = Returns ss ->
  (getReportAnalytics env = false \/ exists m, startScan env = Returns m) ->
  k < length wd ->
  (forall n, n <= k -> cc n = Returns tt) ->
  cc (S k) = Throws error ->
  let w := snd (runScanWorkspace env wd cc) in
  fst (runScanWorkspace env wd cc) = Throws error
  /\ launchedTasks (trace (store w)) = map depTask (firstn k wd)
  /\ map taskOf (inflight w) = map depTask (firstn k wd)
  /\ scanResults (store w) = []
  /\ occurrences isLogError (trace (store w)) = 0
  /\ sessionStatus (store w) = statusFor error.
Proof.
  intros Hss Hstart Hk Hpass Hthrow.
  destruct (cut_in_loop cc wd k error Hk Hpass Hthrow) as (Hcc & Hcut).
  destruct (runScanWorkspace_after_try env wd cc ss Hss)
    as (Hr & Hin & Hres & Hst & Htr).
  destruct (scanWorkspaceTry_cancelled_in_loop env ss (createJasRunner env) wd
              cc (started env wd) error eq_refl Hstart Hcc)
    as (HrT & HtrT & HFT & _ & HresT).
  { cbn [started store checks]. rewrite Hcut. reflexivity. }
  cbv zeta in *. cbn [started store checks] in *. rewrite Hcut in *.
  cbn [fst snd] in *.
  rewrite HrT in *. cbn [caughtEvents] in Htr.
  destruct (failing_depPromises env _ _ HFT) as (_ & _ & Htasks).
  split; [exact Hr|].
  split.
  { rewrite Htr, HtrT. rewrite !launchedTasks_app.
    rewrite startEvents_launches, depEvents_launches. simpl.
    rewrite !app_nil_r. reflexivity. }
  split; [rewrite Hin; exact Htasks|].
  split; [rewrite Hres, HresT; reflexivity|].
  split; [|exact Hst].
  rewrite Htr, HtrT. rewrite !occurrences_app.
  rewrite (startEvents_other isLogError env eq_refl),
    (depEvents_other isLogError _ eq_refl (fun _ => eq_refl)).
  reflexivity.
Qed.

Lemma cancellation_during_fan_out_witness :
  let w := snd (runScanWorkspace lateFailureEnv sampleDescriptors
                  (canceledAt 2)) in
  fst (runScanWorkspace lateFailureEnv sampleDescriptors (canceledAt 2))
  = Throws ScanCancellationError
  /\ launchedTasks (trace (store w)) = map depTask (firstn 1 sampleDescriptors)
  /\ map taskOf (inflight w) = map depTask (firstn 1 sampleDescriptors)
  /\ scanResults (store w) = []
  /\ occurrences isLogError (trace (store w)) = 0
  /\ sessionStatus (store w) = statusFor ScanCancellationError.
Proof.
  apply (cancellation_during_fan_out lateFailureEnv sampleDescriptors
           (canceledAt 2) (mkSupported None) 1 ScanCancellationError).
  - reflexivity.
  - left. reflexivity.
  - simpl. lia.
  - intros [|[|n]] Hn; [reflexivity | reflexivity | lia].
  - reflexivity.
Defined.

Lemma settleEach_settleAll (ps : list Promise) :
  Forall guarded ps -> forall w, settleEach ps w = snd (settleAll ps w).
Proof.
  induction 1 as [|p ps Hp _ IH]; intro w; [reflexivity|].
  rewrite settleAll_cons. cbv zeta.
  rewrite (settle_guarded_fulfils p (store w) Hp).
  rewrite <- IH. simpl. unfold settleNow.
  destruct (settle p (store w)) as [r s']. reflexivity.
Qed.

(** After such a cancellation the launched dependency scans go on in the
    background: once they have all settled nothing is pending, the
    accumulator holds exactly the findings of those that succeeded, and the
    status is [Failed] if one of them failed and otherwise still the one
    the condition was reduced to. *)
Theorem cancelled_scans_complete_in_background (env : Env) (wd : Descriptors)
    (cc : nat -> Outcome unit) (ss : SupportedScans) (k : nat)
    (error : Error) :
  getSupportedScans env = Returns ss ->
  (getReportAnalytics env = false \/ exists m, startScan env = Returns m) ->
  k < length wd ->
  (forall n, n <= k -> cc n = Returns tt) ->
  cc (S k) = Throws error ->
  let w := settleBackground env (snd (runScanWorkspace env wd cc)) in
  inflight w = []
  /\ Permutation (scanResults (store w))
       (dependencyDeliveries env (firstn k wd))
  /\ sessionStatus (store w)
     = (if 0 <? length (failedDependencyScans env (firstn k wd))
        then Failed else statusFor error)
  /\ occurrences isLogError (trace (store w))
     = length (failedDependencyScans env (firstn k wd)).
Proof.
  intros Hss Hstart Hk Hpass Hthrow.
  destruct (cut_in_loop cc wd k error Hk Hpass Hthrow) as (Hcc & Hcut).
  destruct (runScanWorkspace_after_try env wd cc ss Hss)
    as (_ & Hin & Hres & Hst & Htr).
  destruct (scanWorkspaceTry_cancelled_in_loop env ss (createJasRunner env) wd
              cc (started env wd) error eq_refl Hstart Hcc)
    as (HrT & HtrT & HFT & _ & HresT).
  { cbn [started store checks]. rewrite Hcut. reflexivity. }
  cbv zeta in *. cbn [started store checks] in *. rewrite Hcut in *.
  cbn [fst snd] in *.
  rewrite HrT in *. cbn [caughtEvents] in Htr.
  rewrite <- Hin in HFT.
  set (w0 := snd (runScanWorkspace env wd cc)) in *.
  destruct (failing_depPromises env _ _ HFT) as (Hfail & Hdel & _).
  unfold settleBackground.
  set (order := schedule (backgroundOrder env) (inflight w0)).
  assert (Hperm : Permutation (inflight w0) order)
    by apply schedule_Permutation.
  assert (Hall : Forall guarded order).
  { apply guarded_schedule. eapply depPromise_guarded. exact HFT. }
  rewrite (settleEach_settleAll order Hall w0).
  destruct (settleAll_guarded order Hall w0) as (_ & _ & HresE & _).
  destruct (settleAll_guarded_exact order Hall w0)
    as (HinE & _ & HstE & evs & HtrE & Hok & Hlog).
  cbv zeta in *.
  assert (Hcount : length (filter failing order)
                   = length (failedDependencyScans env (firstn k wd))).
  { rewrite <- (filter_length_Permutation failing _ _ Hperm). exact Hfail. }
  split.
  { rewrite HinE. apply filter_all_settled.
    intros q Hq. eapply Permutation_in; [exact Hperm | exact Hq]. }
  split.
  { rewrite HresE, Hres, HresT. simpl. rewrite <- Hdel.
    apply Permutation_sym, flat_map_Permutation. exact Hperm. }
  split.
  { rewrite HstE, existsb_length_filter, Hcount, Hst. reflexivity. }
  rewrite HtrE, Htr, HtrT. rewrite !occurrences_app.
  rewrite (startEvents_other isLogError env eq_refl),
    (depEvents_other isLogError _ eq_refl (fun _ => eq_refl)), Hlog, Hcount.
  unfold occurrences. simpl. lia.
Qed.

Lemma cancelled_scans_complete_in_background_witness :
  let w := settleBackground lateFailureEnv
             (snd (runScanWorkspace lateFailureEnv sampleDescriptors
                     (canceledAt 2))) in
  inflight w = []
  /\ Permutation (scanResults (store w))
       (dependencyDeliveries lateFailureEnv (firstn 1 sampleDescriptors))
  /\ sessionStatus (store w)
     = (if 0 <? length (failedDependencyScans lateFailureEnv
                          (firstn 1 sampleDescriptors))
        then Failed else statusFor ScanCancellationError)
  /\ occurrences isLogError (trace (store w))
     = length (failedDependencyScans lateFailureEnv
                 (firstn 1 sampleDescriptors)).
Proof.
  apply (cancelled_scans_complete_in_background lateFailureEnv
           sampleDescriptors (canceledAt 2) (mkSupported None) 1
           ScanCancellationError).
  - reflexivity.
  - left. reflexivity.
  - simpl. lia.
  - intros [|[|n]] Hn; [reflexivity | reflexivity | lia].
  - reflexivity.
Defined.

(** If [startScan] is called and rejects, the cancellation check is never
    invoked and nothing is launched: the call records the reduced status,
    finalizes and rejects with that condition. *)
Theorem startScan_failure_skips_fan_out (env : Env) (wd : Descriptors)
    (cc : nat -> Outcome unit) (ss : SupportedScans) (error : Error) :
  getSupportedScans env = Returns ss ->
  getReportAnalytics env = true ->
  startScan env = Throws error ->
  let w := snd (runScanWorkspace env wd cc) in
  fst (runScanWorkspace env wd cc) = Throws error
  /\ trace (store w)
     = [EvStartStep (calculateNumberOfTasks (createJasRunner env) wd);
        EvStartScan; EvSetStatus (statusFor error);
        EvEndScan (statusFor error); EvSendUsageReport wd]
  /\ inflight w = []
  /\ scanResults (store w) = [].
Proof.
  intros Hss Ha Hs.
  destruct (runScanWorkspace_after_try env wd cc ss Hss)
    as (Hr & Hin & Hres & Hst & Htr).
  destruct (scanWorkspaceTry_startScan_fails env ss (createJasRunner env) wd
              cc (started env wd) error Ha Hs)
    as (HrT & HtrT & HinT & _ & HresT).
  cbv zeta in *. rewrite HrT in *. cbn [caughtEvents] in Htr.
  split; [exact Hr|].
  split; [rewrite Htr, HtrT, Hst; reflexivity|].
  split; [rewrite Hin, HinT; reflexivity|].
  rewrite Hres, HresT. reflexivity.
Qed.

Lemma startScan_failure_skips_fan_out_witness :
  let w := snd (runScanWorkspace startScanFailsEnv sampleDescriptors
                  neverCanceled) in
  fst (runScanWorkspace startScanFailsEnv sampleDescriptors neverCanceled)
  = Throws (OtherError "analytics unavailable"%string)
  /\ trace (store w)
     = [EvStartStep (calculateNumberOfTasks (createJasRunner startScanFailsEnv)
                       sampleDescriptors);
        EvStartScan;
        EvSetStatus (statusFor (OtherError "analytics unavailable"%string));
        EvEndScan (statusFor (OtherError "analytics unavailable"%string));
        EvSendUsageReport sampleDescriptors]
  /\ inflight w = []
  /\ scanResults (store w) = [].
Proof.
  apply (startScan_failure_skips_fan_out startScanFailsEnv sampleDescriptors
           neverCanceled (mkSupported None)); reflexivity.
Defined.

(** ** Properties of every run that entered the [try] block *)

(** Whatever path a run takes, its trace starts with the progress step and
    the start events; what follows holds no call of [startScan] and at
    most one launch per entry and per applicable runner. *)
Lemma runScanWorkspace_any_path (env : Env) (wd : Descriptors)
    (cc : nat -> Outcome unit) (ss : SupportedScans) :
  getSupportedScans env = Returns ss ->
  exists evs,
    trace (store (snd (runScanWorkspace env wd cc)))
    = [EvStartStep (calculateNumberOfTasks (createJasRunner env) wd)]
      ++ startEvents env ++ evs
    /\ occurrences isStartScan evs = 0
    /\ length (launchedTasks evs)
       <= length wd + length (filter shouldRun (createJasRunner env)).
Proof.
  intro Hss.
  destruct (runScanWorkspace_after_try env wd cc ss Hss)
    as (Hr & _ & _ & _ & Htr).
  cbv zeta in *.
  assert (Hcases :
            (exists e, getReportAnalytics env = true /\ startScan env = Throws e)
            \/ (getReportAnalytics env = false
                \/ exists m, startScan env = Returns m)).
  { destruct (getReportAnalytics env); [|right; left; reflexivity].
    destruct (startScan env) as [m|e]; [right; right; exists m|left; exists e];
      auto. }
  destruct Hcases as [(e & Ha & Hs)|Hstart].
  { destruct (scanWorkspaceTry_startScan_fails env ss (createJasRunner env) wd
                cc (started env wd) e Ha Hs) as (HrT & HtrT & _).
    cbv zeta in *. rewrite HrT in *. cbn [caughtEvents] in Htr.
    eexists. split; [|split].
    - rewrite Htr, HtrT. unfold startEvents. rewrite Ha.
      cbn [started store trace]. rewrite <- !app_assoc. reflexivity.
    - reflexivity.
    - simpl. lia. }
  destruct (cc 0) as [[]|e] eqn:Hcc.
  2:{ destruct (scanWorkspaceTry_cancelled_at_entry env ss (createJasRunner env)
                  wd cc (started env wd) e Hstart Hcc) as (HrT & _ & _ & HtrT).
      cbv zeta in *. rewrite HrT in *. cbn [caughtEvents] in Htr.
      eexists. split; [|split].
      - rewrite Htr, HtrT. fold (startEvents env).
        cbn [started store trace]. rewrite <- !app_assoc. reflexivity.
      - reflexivity.
      - simpl. lia. }
  destruct (snd (fanOutCut cc 1 (length wd))) as [e|] eqn:Hcut.
  - destruct (scanWorkspaceTry_cancelled_in_loop env ss (createJasRunner env)
                wd cc (started env wd) e eq_refl Hstart Hcc Hcut)
      as (HrT & HtrT & _).
    cbv zeta in *. rewrite HrT in *. cbn [caughtEvents] in Htr.
    cbn [started store checks] in HtrT.
    eexists. split; [|split].
    + rewrite Htr, HtrT. cbn [started store trace].
      rewrite <- !app_assoc. reflexivity.
    + rewrite !occurrences_app.
      rewrite (depEvents_other isStartScan _ eq_refl (fun _ => eq_refl)).
      reflexivity.
    + rewrite !launchedTasks_app, depEvents_launches. simpl.
      rewrite !app_nil_r, length_map, length_firstn. lia.
  - assert (Hret : fst (runScanWorkspace env wd cc) = Returns tt).
    { rewrite Hr.
      apply (scanWorkspaceTry_completed_exact env ss (createJasRunner env) wd
               cc (started env wd) eq_refl Hstart Hcc Hcut). }
    destruct (runScanWorkspace_completed env wd cc ss Hss Hret)
      as (_ & (evs & HtrC & Hok & _) & _).
    cbv zeta in HtrC.
    eexists. split; [exact HtrC|]. split.
    + rewrite !occurrences_app.
      rewrite (depEvents_other isStartScan _ eq_refl (fun _ => eq_refl)),
        (runnerLaunches_other isStartScan _ _ (fun _ => eq_refl)),
        (occurrences_excluded isStartScan isSettlementEvent evs);
        [reflexivity| |exact Hok].
      intros ev Hev. destruct ev; try discriminate; reflexivity.
    + rewrite !launchedTasks_app, depEvents_launches, runnerLaunches_launches,
        (launchedTasks_settlement evs Hok).
      simpl. rewrite !length_app, !length_map. simpl. lia.
Qed.

(** [startScan] is called exactly once when analytics reporting is
    enabled and never when it is not, on every path of a run that has a
    session. *)
Theorem startScan_called_iff_analytics_enabled (env : Env) (wd : Descriptors)
    (cc : nat -> Outcome unit) (ss : SupportedScans) :
  getSupportedScans env = Returns ss ->
  occurrences isStartScan (trace (store (snd (runScanWorkspace env wd cc))))
  = if getReportAnalytics env then 1 else 0.
Proof.
  intro Hss.
  destruct (runScanWorkspace_any_path env wd cc ss Hss) as (evs & Htr & H0 & _).
  rewrite Htr, !occurrences_app, H0. unfold startEvents, occurrences.
  destruct (getReportAnalytics env); reflexivity.
Qed.

Lemma startScan_called_iff_analytics_enabled_witness :
  occurrences isStartScan
    (trace (store (snd (runScanWorkspace lateFailureEnv sampleDescriptors
                          (canceledAt 2)))))
  = if getReportAnalytics lateFailureEnv then 1 else 0.
Proof.
  apply (startScan_called_iff_analytics_enabled lateFailureEnv
           sampleDescriptors (canceledAt 2) (mkSupported None)).
  reflexivity.
Defined.

Lemma manifests_at_least_entries (wd : Descriptors) :
  Forall (fun entry => snd entry <> []) wd ->
  length wd <= list_sum (map (fun entry => length (snd entry)) wd).
Proof.
  induction 1 as [|[type paths] wd Hne _ IH]; simpl; [lia|].
  destruct paths as [|u paths]; [contradiction|]. simpl in *. lia.
Qed.

(** When no entry of the mapping has an empty manifest list, a run never
    launches more scans than the size the progress step was started
    with. *)
Theorem step_size_bounds_launches (env : Env) (wd : Descriptors)
    (cc : nat -> Outcome unit) (ss : SupportedScans) :
  getSupportedScans env = Returns ss ->
  Forall (fun entry => snd entry <> []) wd ->
  let tr := trace (store (snd (runScanWorkspace env wd cc))) in
  hd_error tr
  = Some (EvStartStep (calculateNumberOfTasks (createJasRunner env) wd))
  /\ length (launchedTasks tr)
     <= calculateNumberOfTasks (createJasRunner env) wd.
Proof.
  intros Hss Hne. cbv zeta.
  destruct (runScanWorkspace_any_path env wd cc ss Hss) as (evs & Htr & _ & Hl).
  rewrite Htr. split; [reflexivity|].
  rewrite !launchedTasks_app, startEvents_launches. simpl.
  unfold calculateNumberOfTasks.
  rewrite manifest_count_eq, specifiedManifestCount_all.
  pose proof (manifests_at_least_entries wd Hne).
  pose proof (filter_length_le shouldRun (createJasRunner env)).
  lia.
Qed.

Lemma step_size_bounds_launches_witness :
  let tr := trace (store (snd (runScanWorkspace sampleEnv sampleDescriptors
                                 neverCanceled))) in
  hd_error tr
  = Some (EvStartStep (calculateNumberOfTasks (createJasRunner sampleEnv)
                         sampleDescriptors))
  /\ length (launchedTasks tr)
     <= calculateNumberOfTasks (createJasRunner sampleEnv) sampleDescriptors.
Proof.
  apply (step_size_bounds_launches sampleEnv sampleDescriptors neverCanceled
           (mkSupported (Some true))).
  - reflexivity.
  - repeat constructor; discriminate.
Defined.

(** ** runDependenciesScans on its own *)

(** Called with nothing in flight, [runDependenciesScans] leaves in flight
    exactly the scans of the entries it got through, whether it returns
    their promises or loses them to the throw of a check, and touches
    neither the status nor the accumulator. *)
Theorem runDependenciesScans_keeps_launched_in_flight (env : Env)
    (wd : Descriptors) (cc : nat -> Outcome unit) (w : World) :
  inflight w = [] ->
  let r := runDependenciesScans env wd cc w in
  let cut := fanOutCut cc (checks (store w)) (length wd) in
  map taskOf (inflight (snd r)) = map depTask (firstn (fst cut) wd)
  /\ fst r = match snd cut with
             | Some error => Throws error
             | None => Returns (inflight (snd r))
             end
  /\ sessionStatus (store (snd r)) = sessionStatus (store w)
  /\ scanResults (store (snd r)) = scanResults (store w).
Proof.
  intro Hnone. cbv zeta. unfold runDependenciesScans.
  assert (Hf : freshPids w) by (unfold freshPids; rewrite Hnone; constructor).
  destruct (depLoop_cut env cc wd [] w Hf) as (_ & _ & _ & ps & HF & Hin & Hr).
  destruct (depLoop_exact env cc wd [] w)
    as (_ & _ & _ & _ & Hst & _ & Hres & _).
  cbv zeta in *. rewrite Hnone in Hin. simpl in Hin, Hr.
  rewrite Hin, Hr.
  destruct (failing_depPromises env _ _ HF) as (_ & _ & Htasks).
  repeat split; assumption.
Qed.

Lemma runDependenciesScans_keeps_launched_in_flight_witness :
  let r := runDependenciesScans sampleEnv sampleDescriptors (canceledAt 1)
             (newWorld sampleEnv) in
  let cut := fanOutCut (canceledAt 1) (checks (store (newWorld sampleEnv)))
               (length sampleDescriptors) in
  map taskOf (inflight (snd r))
  = map depTask (firstn (fst cut) sampleDescriptors)
  /\ fst r = match snd cut with
             | Some error => Throws error
             | None => Returns (inflight (snd r))
             end
  /\ sessionStatus (store (snd r))
     = sessionStatus (store (newWorld sampleEnv))
  /\ scanResults (store (snd r)) = scanResults (store (newWorld sampleEnv)).
Proof.
  apply (runDependenciesScans_keeps_launched_in_flight sampleEnv
           sampleDescriptors (canceledAt 1) (newWorld sampleEnv)).
  reflexivity.
Defined.
